(** * Distributed qualification tool (spark_rapids_tools/tools/distributed)

    Shallow embedding of the distributed runner: the result combiner
    ([result_combiner.py]), the worker executor ([main.py]), the Spark job
    manager ([spark_job_manager.py]) and the HDFS manager ([hdfs_manager.py]). *)

From Stdlib Require Import String Ascii List ZArith Bool Lia PeanoNat.
Import ListNotations.
Open Scope string_scope.
Set Warnings "-register-all".

(** ** Python helpers *)

Definition nl : string := String (ascii_of_nat 10) EmptyString.

(** [sep.join(xs)] *)
Fixpoint str_join (sep : string) (xs : list string) : string :=
  match xs with
  | [] => ""
  | [x] => x
  | x :: rest => x ++ sep ++ str_join sep rest
  end.

(** [fnmatch(path, "*" + suf)]: the path ends with [suf]. *)
Definition ends_with (suf s : string) : bool :=
  (String.length suf <=? String.length s)%nat &&
  String.eqb (substring (String.length s - String.length suf) (String.length suf) s) suf.

(** Decimal rendering of an int, as [f"{n}"] does. *)
Fixpoint digits_of_nat (fuel n : nat) (acc : string) : string :=
  match fuel with
  | O => acc
  | S fuel' =>
      let d := ascii_of_nat (48 + n mod 10) in
      let acc' := String d acc in
      if (n <? 10)%nat then acc' else digits_of_nat fuel' (n / 10) acc'
  end.

Definition string_of_Z (z : Z) : string :=
  match z with
  | Z0 => "0"
  | Zpos p => digits_of_nat (S (Pos.to_nat p)) (Pos.to_nat p) ""
  | Zneg p => "-" ++ digits_of_nat (S (Pos.to_nat p)) (Pos.to_nat p) ""
  end.

(** A Python dict with string keys, kept in insertion order. *)
Fixpoint dict_get {V} (k : string) (m : list (string * V)) : option V :=
  match m with
  | [] => None
  | (k', v) :: r => if String.eqb k k' then Some v else dict_get k r
  end.

(** [d[k] = v]: replaces in place, or appends a new key. *)
Fixpoint dict_set {V} (k : string) (v : V) (m : list (string * V)) : list (string * V) :=
  match m with
  | [] => [(k, v)]
  | (k', v') :: r => if String.eqb k k' then (k, v) :: r else (k', v') :: dict_set k v r
  end.

(** ** Exceptions raised by the code and the libraries it calls *)

Inductive exn : Type :=
| FileNotFoundError (path : string)
| OSError (msg : string)
(** raised by [bytes.decode] for bytes that are not valid in the encoding *)
| UnicodeDecodeError (msg : string)
| ValueError (msg : string)
| ZeroDivisionError
| CSVParseError
| JSONDecodeError
| CalledProcessError (returncode : Z) (stdout stderr : string)
(** [RuntimeError(f"Error processing {kind} {path}: {inner}")] *)
| ProcessingError (kind path : string) (inner : exn)
(** [Exception(f"ERROR: {description}\n{stderr}")] of [Utilities.run_cmd] *)
| CmdError (description stderr : string)
(** [RuntimeError(f"Failed to run HDFS command: {description}, Error: {e}")] *)
| HdfsCommandError (description : string) (inner : exn)
(** a failed Spark job, raised by [collect()] when a task raised *)
| JobFailed (inner : exn).

(** ** JSON values as [json.load] returns them *)

Inductive json : Type :=
| JNull
| JBool (b : bool)
| JNum (z : Z)
| JStr (s : string)
| JArr (items : list json)
| JObj (fields : list (string * json)).

(** [isinstance(item, dict)] *)
Definition is_dict (j : json) : bool :=
  match j with JObj _ => true | _ => false end.

(** [isinstance(data, list) and all(isinstance(item, dict) for item in data)] *)
Definition is_list_of_dicts (j : json) : option (list json) :=
  match j with
  | JArr items => if forallb is_dict items then Some items else None
  | _ => None
  end.

(** The error [JSONProcessor.process] raises for a file whose top level is
    not a list of records. *)
Definition MalformedRecordFile (path : string) : exn :=
  ProcessingError "JSON" path
    (ValueError ("Unexpected format in " ++ path ++ ": expected list of dictionaries.")).

(** ** Result combiner ([result_combiner.py]) *)

Module Combiner.

(** The HDFS tree under the executor output directory: files carry their
    bytes; a directory lists its entries in the order [get_file_info]
    returns them. Names stand for the paths the code matches on. *)
Inductive node : Type :=
| File (name contents : string)
| Dir (name : string) (children : list node).

(** The library calls the processors make: [pd.read_csv],
    [pd.concat([a, b], ignore_index=True)], [DataFrame.to_csv(index=False)],
    [json.load] and [json.dump(indent=2)]. *)
Class Libs : Type := {
  frame : Type;
  read_csv : string -> option frame;
  pd_concat : frame -> frame -> frame;
  to_csv : frame -> string;
  json_load : string -> option json;
  json_dump : json -> string
}.

Section State.
Context {L : Libs}.

(** The fields of a [ResultCombiner] and the file stores it writes to. *)
Record state : Type := mkState {
  combined_dataframes : list (string * frame);
  combined_json_data : list (string * list json);
  (** files of the local [combined_output_path], by name *)
  out_files : list (string * string);
  (** [hdfs.copy_file(..., combined_output_path)]: the file copied to the
      path [combined_output_path] itself *)
  props_copy : option string
}.

Definition set_dataframes (d : list (string * frame)) (s : state) : state :=
  mkState d (combined_json_data s) (out_files s) (props_copy s).
Definition set_json_data (d : list (string * list json)) (s : state) : state :=
  mkState (combined_dataframes s) d (out_files s) (props_copy s).
Definition set_out_files (o : list (string * string)) (s : state) : state :=
  mkState (combined_dataframes s) (combined_json_data s) o (props_copy s).
Definition set_props_copy (p : option string) (s : state) : state :=
  mkState (combined_dataframes s) (combined_json_data s) (out_files s) p.

(** State and exceptions: side effects done before a raise persist. *)
Inductive res (A : Type) : Type :=
| Ok (a : A) (s : state)
| Err (e : exn) (s : state).
Arguments Ok {A} a s.
Arguments Err {A} e s.

Definition M (A : Type) : Type := state -> res A.

Definition ret {A} (a : A) : M A := fun s => Ok a s.
Definition raise {A} (e : exn) : M A := fun s => Err e s.
Definition bind {A B} (m : M A) (f : A -> M B) : M B :=
  fun s => match m s with Ok a s' => f a s' | Err e s' => Err e s' end.
Definition gets {A} (f : state -> A) : M A := fun s => Ok (f s) s.
Definition modify (f : state -> state) : M unit := fun s => Ok tt (f s).

End State.

Arguments Ok {L A} a s.
Arguments Err {L A} e s.

Notation "x <- m ;; k" := (bind m (fun x => k))
  (at level 61, m at next level, right associativity).
Notation "m ;; k" := (bind m (fun _ => k))
  (at level 61, right associativity).

Section Combine.
Context {L : Libs}.

(** [for x in xs: f(x)] *)
Fixpoint mfor {A} (xs : list A) (f : A -> M unit) : M unit :=
  match xs with
  | [] => ret tt
  | x :: r => f x ;; mfor r f
  end.

(** [hdfs.get_file_info(fs.FileSelector(path, recursive=False))] *)
Definition list_dir (n : node) : M (list node) :=
  match n with
  | Dir _ cs => ret cs
  | File nm _ => raise (OSError (nm ++ " is not a directory"))
  end.

(** [FileProcessor.get_matching_files]: the files of the directory whose
    path matches ["*" ++ suf]. *)
Fixpoint matching_files (suf : string) (cs : list node) : list (string * string) :=
  match cs with
  | [] => []
  | File nm c :: r =>
      if ends_with suf nm then (nm, c) :: matching_files suf r else matching_files suf r
  | Dir _ _ :: r => matching_files suf r
  end.

Definition get_matching_files (inner : node) (suf : string) : M (list (string * string)) :=
  cs <- list_dir inner ;; ret (matching_files suf cs).

(** The entry named [nm] of a directory, as a path [inner / nm] resolves. *)
Definition child (nm : string) (inner : node) : option node :=
  match inner with
  | Dir _ cs => find (fun c => match c with
                               | File n _ | Dir n _ => String.eqb n nm
                               end) cs
  | File _ _ => None
  end.

(** *** [CSVProcessor.process] *)
Definition csv_file_step (f : string * string) : M unit :=
  let '(name, contents) := f in
  match read_csv contents with
  | None => raise (ProcessingError "CSV" name CSVParseError)
  | Some csv_data =>
      d <- gets combined_dataframes ;;
      match dict_get name d with
      | Some old => modify (set_dataframes (dict_set name (pd_concat old csv_data) d))
      | None => modify (set_dataframes (dict_set name csv_data d))
      end
  end.

Definition csv_process (inner : node) : M unit :=
  files <- get_matching_files inner ".csv" ;; mfor files csv_file_step.

(** *** [JSONProcessor.process] *)
Definition json_file_step (f : string * string) : M unit :=
  let '(name, contents) := f in
  match json_load contents with
  | None => raise (ProcessingError "JSON" name JSONDecodeError)
  | Some data =>
      match is_list_of_dicts data with
      | None => raise (MalformedRecordFile name)
      | Some records =>
          d <- gets combined_json_data ;;
          match dict_get name d with
          | Some old => modify (set_json_data (dict_set name (old ++ records)%list d))
          | None => modify (set_json_data (dict_set name records d))
          end
      end
  end.

Definition json_process (inner : node) : M unit :=
  files <- get_matching_files inner ".json" ;; mfor files json_file_step.

(** *** [LogProcessor.process]: append to [combined_output_path / name]. *)
Definition log_file_step (f : string * string) : M unit :=
  let '(name, contents) := f in
  o <- gets out_files ;;
  let old := match dict_get name o with Some c => c | None => "" end in
  modify (set_out_files (dict_set name (old ++ contents) o)).

Definition log_process (inner : node) : M unit :=
  files <- get_matching_files inner ".log" ;; mfor files log_file_step.

(** *** [RawMetricsProcessor.process]:
    [fs.copy_files(inner/raw_metrics, combined_output_path)] copies the files
    of the subtree to the same relative paths under the destination; a
    missing source raises, and a plain file cannot be copied onto the
    existing destination directory. *)
Fixpoint tree_files (prefix : string) (n : node) : list (string * string) :=
  match n with
  | File nm c => [(prefix ++ nm, c)]
  | Dir nm cs =>
      (fix go (cs : list node) : list (string * string) :=
         match cs with
         | [] => []
         | c :: r => (tree_files (prefix ++ nm ++ "/") c ++ go r)%list
         end) cs
  end.

Fixpoint children_files (cs : list node) : list (string * string) :=
  match cs with
  | [] => []
  | c :: r => (tree_files "" c ++ children_files r)%list
  end.

Definition copy_into (fs : list (string * string)) (o : list (string * string)) :=
  fold_left (fun acc '(k, v) => dict_set k v acc) fs o.

Definition raw_metrics_process (inner : node) : M unit :=
  match child "raw_metrics" inner with
  | Some (Dir _ cs) =>
      o <- gets out_files ;; modify (set_out_files (copy_into (children_files cs) o))
  | Some (File _ _) => raise (OSError "raw_metrics: destination is a directory")
  | None => raise (FileNotFoundError "raw_metrics")
  end.

(** *** [RuntimePropertiesProcessor.process]:
    [hdfs.copy_file(inner/runtime.properties, combined_output_path)]. *)
Definition runtime_properties_process (inner : node) : M unit :=
  match child "runtime.properties" inner with
  | Some (File _ c) => modify (set_props_copy (Some c))
  | Some (Dir _ _) => raise (OSError "runtime.properties is a directory")
  | None => raise (FileNotFoundError "runtime.properties")
  end.

(** *** [ResultCombiner.combine_results] *)
Definition process_item (directory : node) : M unit :=
  inner_dir_info <- list_dir directory ;;
  match inner_dir_info with
  | [] => ret tt
  | inner :: _ =>
      d <- gets combined_dataframes ;;
      (* Process runtime properties once *)
      (match d with [] => runtime_properties_process inner | _ :: _ => ret tt end) ;;
      csv_process inner ;;
      json_process inner ;;
      log_process inner ;;
      raw_metrics_process inner
  end.

Definition write_csv_files (d : list (string * frame)) (o : list (string * string)) :=
  fold_left (fun acc '(k, df) => dict_set k (to_csv df) acc) d o.

Definition write_json_files (d : list (string * list json)) (o : list (string * string)) :=
  fold_left (fun acc '(k, data) => dict_set k (json_dump (JArr data)) acc) d o.

Definition write_combined_csv : M unit :=
  modify (fun s => set_out_files (write_csv_files (combined_dataframes s) (out_files s)) s).

Definition write_combined_json : M unit :=
  modify (fun s => set_out_files (write_json_files (combined_json_data s) (out_files s)) s).

Definition combine_results (executor_output_dir : node) : M unit :=
  directories <- list_dir executor_output_dir ;;
  mfor directories process_item ;;
  write_combined_csv ;;
  write_combined_json.

(** [ResultCombiner(output_folder, executor_output_dir)]: fresh accumulators
    over whatever the output locations already hold. *)
Definition new_combiner (out : list (string * string)) (pc : option string) : state :=
  mkState [] [] out pc.

(** One run, as [run_tool_as_spark_app] does it: construct, then combine. *)
Definition run_combiner (executor_output_dir : node) (out : list (string * string))
    (pc : option string) : res unit :=
  combine_results executor_output_dir (new_combiner out pc).

(** What a run reads back of its own state: the two accumulators. *)
Definition accs (s : state) : list (string * frame) * list (string * list json) :=
  (combined_dataframes s, combined_json_data s).

Definition same_res {A} (r1 r2 : res A) : Prop :=
  match r1, r2 with
  | Ok a1 s1, Ok a2 s2 => a1 = a2 /\ accs s1 = accs s2
  | Err e1 s1, Err e2 s2 => e1 = e2 /\ accs s1 = accs s2
  | _, _ => False
  end.

(** An action whose outcome and effect on the accumulators depend only on
    the accumulators, not on the output files already present. *)
Definition acc_determined {A} (m : M A) : Prop :=
  forall s1 s2, accs s1 = accs s2 -> same_res (m s1) (m s2).

(** The state after [_write_combined_csv] and [_write_combined_json]. *)
Definition finalize (s : state) : state :=
  set_out_files (write_json_files (combined_json_data s)
                   (write_csv_files (combined_dataframes s) (out_files s))) s.

End Combine.

(** *** A concrete instance of the library calls, for tests: a CSV file is
    one row, a frame is its list of rows. *)
Definition demo_json_load (c : string) : option json :=
  if String.eqb c "[{id:1}]" then Some (JArr [JObj [("id", JNum 1)]])
  else if String.eqb c "[{id:2}]" then Some (JArr [JObj [("id", JNum 2)]])
  else if String.eqb c "{id:3}" then Some (JObj [("id", JNum 3)])
  else None.

Definition demo_json_dump (j : json) : string :=
  match j with
  | JArr xs => "records:" ++ string_of_Z (Z.of_nat (List.length xs))
  | _ => "other"
  end.

Definition demo_libs : Libs := {|
  frame := list string;
  read_csv := fun c => Some [c];
  pd_concat := @app string;
  to_csv := str_join nl;
  json_load := demo_json_load;
  json_dump := demo_json_dump
|}.

(** An item output directory [<item-id>/rapids_4_spark_qualification_output/]. *)
Definition demo_item (item : string) (files : list node) : node :=
  Dir item [Dir "rapids_4_spark_qualification_output" files].

Definition three_props_items : node :=
  Dir "executor_output"
    [demo_item "app-1" [File "runtime.properties" "p=1"; Dir "raw_metrics" []];
     demo_item "app-2" [File "runtime.properties" "p=2"; Dir "raw_metrics" []];
     demo_item "app-3" [File "runtime.properties" "p=3"; Dir "raw_metrics" []]].

Definition two_reports : node :=
  Dir "executor_output"
    [demo_item "app-1" [File "runtime.properties" "p=1"; File "report.json" "[{id:1}]";
                        File "app_summary.csv" "A"; Dir "raw_metrics" []];
     demo_item "app-2" [File "runtime.properties" "p=2"; File "report.json" "[{id:2}]";
                        File "app_summary.csv" "B"; Dir "raw_metrics" []]].

Definition malformed_report : node :=
  Dir "executor_output"
    [demo_item "app-1" [File "runtime.properties" "p=1"; File "report.json" "[{id:1}]";
                        File "app_summary.csv" "A"; Dir "raw_metrics" []];
     demo_item "app-2" [File "runtime.properties" "p=2"; File "report.json" "{id:3}";
                        File "app_summary.csv" "B"; Dir "raw_metrics" []]].

End Combiner.

(** ** Child processes *)

(** What [subprocess.run(cmd, capture_output=True, text=True)] meets: the
    process runs to completion and what it wrote to stdout and stderr
    decodes as text; or it cannot be started and [subprocess.run] raises an
    [OSError] (for instance a missing executable); or it runs but its
    output is not valid in the locale's encoding, and [communicate()]
    raises [UnicodeDecodeError] while decoding it, before the exit status
    is looked at (so whatever that status is). *)
Inductive run_outcome : Type :=
| Completed (returncode : Z) (stdout stderr : string)
| LaunchFailed (msg : string)
| DecodeFailed (msg : string).

(** ** Worker executor ([DistributedJarExecutor] in [main.py]) *)

Module Worker.

(** [f"{label}\n{s}"] when [s] is truthy (non-empty). *)
Definition nonempty_line (label s : string) : list string :=
  if String.eqb s "" then [] else [label ++ nl ++ s].

(** [subprocess.run(jar_command, check=True, capture_output=True, text=True)] *)
Definition subprocess_run_check (o : run_outcome) : exn + (string * string) :=
  match o with
  | Completed rc out err =>
      if Z.eqb rc 0 then inr (out, err) else inl (CalledProcessError rc out err)
  | LaunchFailed msg => inl (OSError msg)
  | DecodeFailed msg => inl (UnicodeDecodeError msg)
  end.

(** [_submit_jar_cmd]: the [try]/[except CalledProcessError]/[finally]
    block. [processing_time] is [str(datetime.now() - start_time)]. A
    result [inl e] is the exception leaving the method. *)
Definition submit_jar_cmd (jar_command : list string) (outcome : run_outcome)
    (processing_time : string) : exn + list string :=
  let logs := ["Starting execution of command: " ++ str_join " " jar_command] in
  let '(logs, pending) :=
    match subprocess_run_check outcome with
    | inr (out, err) =>
        (app logs (("Command succeeded with stdout:" ++ nl ++ out)
                   :: nonempty_line "Command stderr:" err), None)
    | inl (CalledProcessError rc out err) =>
        (app logs (("Command failed with exit code " ++ string_of_Z rc ++ ".")
                   :: app (nonempty_line "Command stdout:" out)
                          (nonempty_line "Command stderr:" err)), None)
    | inl ex => (logs, Some ex)
    end in
  (* finally *)
  let logs := app logs ["Total processing time: " ++ processing_time] in
  match pending with
  | None => inr logs
  | Some ex => inl ex
  end.

(** [os.path.basename] *)
Fixpoint basename_from (s cur : string) : string :=
  match s with
  | EmptyString => cur
  | String c r =>
      if Ascii.eqb c "/"%char then basename_from r "" else basename_from r (cur ++ String c "")
  end.

Definition basename (p : string) : string := basename_from p "".

(** [os.path.join(a, b)] for a relative [b]. *)
Definition path_join (a b : string) : string :=
  if String.eqb a "" || ends_with "/" a then a ++ b else a ++ "/" ++ b.

(** [run_jar_map_func], the function mapped over the event logs;
    [get_jar_command] stands for [_get_jar_command], [world] for what each
    command does when run. *)
Definition run_jar_map_func (hdfs_base_dir : string)
    (get_jar_command : string -> string -> list string)
    (world : list string -> run_outcome) (processing_time : string)
    (file_path : string) : exn + (list string * string) :=
  let logs := ["Processing " ++ file_path] in
  let executor_output_dir := path_join hdfs_base_dir (basename file_path) in
  let logs := app logs ["Executor output directory: " ++ executor_output_dir] in
  let jar_command := get_jar_command file_path executor_output_dir in
  match submit_jar_cmd jar_command (world jar_command) processing_time with
  | inl e => inl e
  | inr l => inr (app logs l, executor_output_dir)
  end.

(** The fixed lines of the narration. *)
Definition start_line (cmd : list string) : string :=
  "Starting execution of command: " ++ str_join " " cmd.

Definition time_line (t : string) : string := "Total processing time: " ++ t.

Definition failed_line (rc : Z) : string :=
  "Command failed with exit code " ++ string_of_Z rc ++ ".".

End Worker.

(** ** Job dispatcher ([SparkJobManager] in [spark_job_manager.py]) *)

Module Dispatcher.

Section Dispatch.
Context {A : Type}.

(** PySpark's batching of the collection before it is sent to the JVM:
    consecutive runs of [size] elements. *)
Fixpoint batches_aux (fuel size : nat) (xs : list A) : list (list A) :=
  match fuel with
  | O => []
  | S fuel' =>
      match xs with
      | [] => []
      | _ :: _ => firstn size xs :: batches_aux fuel' size (skipn size xs)
      end
  end.

Definition batches (size : nat) (xs : list A) : list (list A) :=
  batches_aux (List.length xs) size xs.

(** Spark's [ParallelCollectionRDD.slice]: slice [i] holds the positions
    [i * len / numSlices] to [(i + 1) * len / numSlices]. *)
Definition positions (len numSlices : nat) : list (nat * nat) :=
  map (fun i => (i * len / numSlices, S i * len / numSlices)) (seq 0 numSlices).

Definition slice {B} (xs : list B) (numSlices : nat) : list (list B) :=
  map (fun '(st, en) => firstn (en - st) (skipn st xs)) (positions (List.length xs) numSlices).

(** [SparkContext.parallelize(c, numSlices)]: the batch size is
    [max(1, min(len(c) // numSlices, 1024))], so [numSlices = 0] raises
    [ZeroDivisionError]; the batches are then sliced into partitions. *)
Definition parallelize (c : list A) (numSlices : nat) : exn + list (list A) :=
  match numSlices with
  | O => inl ZeroDivisionError
  | S _ =>
      let batchSize := Nat.max 1 (Nat.min (List.length c / numSlices) 1024) in
      inr (map (@concat A) (slice (batches batchSize c) numSlices))
  end.

(** Applying a raising function to every element, in order. *)
Fixpoint map_all {B} (f : A -> exn + B) (xs : list A) : exn + list B :=
  match xs with
  | [] => inr []
  | x :: r =>
      match f x with
      | inl e => inl e
      | inr b => match map_all f r with inl e => inl e | inr bs => inr (b :: bs) end
      end
  end.

(** [rdd.map(f).collect()]: every partition's task maps [f] over its
    elements; a task that raises fails the job; the results come back in
    partition order. Spark runs the tasks concurrently, so when several
    raise, the one that fails the job depends on the timing; this model
    takes the first in partition order, and the theorems about failing
    jobs only say that the exception is that of some raising item. *)
Definition map_collect {B} (f : A -> exn + B) (rdd : list (list A)) : exn + list B :=
  (fix go (ps : list (list A)) : exn + list B :=
     match ps with
     | [] => inr []
     | p :: r =>
         match map_all f p with
         | inl e => inl (JobFailed e)
         | inr bs => match go r with inl e => inl e | inr cs => inr (app bs cs) end
         end
     end) rdd.

(** [logs_arr_list, result = zip( *map_fn_result)] *)
Definition unzip2 {B C} (rs : list (B * C)) : exn + (list B * list C) :=
  match rs with
  | [] => inl (ValueError "not enough values to unpack (expected 2, got 0)")
  | _ :: _ => inr (map fst rs, map snd rs)
  end.

(** [_write_output]: the text of the run manifest. *)
Definition write_output (logs_arr_list : list (list string)) (total_time : string) : string :=
  str_join (nl ++ nl) (map (str_join nl) logs_arr_list)
  ++ nl ++ "Job took " ++ total_time ++ " to complete".

(** [submit_map_job], over a parallelizing primitive [par] (the code uses
    [parallelize]). Returns the manifest written, if any, and the output
    directories or the exception raised. *)
Definition submit_map_job (par : list A -> nat -> exn + list (list A))
    (map_func : A -> exn + (list string * string)) (input_list : list A)
    (total_time : string) : option string * (exn + list string) :=
  match par input_list (List.length input_list) with
  | inl e => (None, inl e)
  | inr input_list_rdd =>
      match map_collect map_func input_list_rdd with
      | inl e => (None, inl e)
      | inr map_fn_result =>
          match unzip2 map_fn_result with
          | inl e => (None, inl e)
          | inr (logs_arr_list, result) =>
              (Some (write_output logs_arr_list total_time), inr result)
          end
      end
  end.

End Dispatch.

End Dispatcher.

(** ** HDFS setup ([HdfsManager] in [hdfs_manager.py]) *)

Module Hdfs.

(** [Utilities.run_cmd(command, description)] *)
Definition run_cmd (outcome : run_outcome) (description : string) : exn + (string * string) :=
  match outcome with
  | Completed rc out err =>
      if Z.eqb rc 0 then inr (out, err) else inl (CmdError description err)
  | LaunchFailed msg => inl (OSError msg)
  | DecodeFailed msg => inl (UnicodeDecodeError msg)
  end.

(** [HdfsManager._run_hdfs_command]: the commands run, and the result. *)
Definition run_hdfs_command (hadoop_home : option string)
    (world : list string -> run_outcome) (hdfs_args : list string)
    (description : string) : list (list string) * (exn + (string * string)) :=
  match hadoop_home with
  | None | Some EmptyString =>
      ([], inl (ValueError "HADOOP_HOME environment variable is not set"))
  | Some h =>
      let command := (h ++ "/bin/hdfs") :: hdfs_args in
      ([command],
       match run_cmd (world command) description with
       | inl e => inl (HdfsCommandError description e)
       | inr r => inr r
       end)
  end.

Definition rm_args (hdfs_base_dir : string) : list string :=
  ["dfs"; "-rm"; "-r"; hdfs_base_dir].

Definition mkdir_args (hdfs_base_dir : string) : list string :=
  ["dfs"; "-mkdir"; "-p"; hdfs_base_dir].

Definition rm_description (hdfs_base_dir : string) : string :=
  "Removing HDFS directory " ++ hdfs_base_dir.

Definition mkdir_description (hdfs_base_dir : string) : string :=
  "Creating HDFS directory " ++ hdfs_base_dir.

(** [HdfsManager.init_setup]: the removal sits in
    [try: ... except Exception: pass]. *)
Definition init_setup (hadoop_home : option string) (world : list string -> run_outcome)
    (hdfs_base_dir : string) : list (list string) * (exn + unit) :=
  let '(t1, _) := run_hdfs_command hadoop_home world (rm_args hdfs_base_dir)
                    (rm_description hdfs_base_dir) in
  let '(t2, r2) := run_hdfs_command hadoop_home world (mkdir_args hdfs_base_dir)
                     (mkdir_description hdfs_base_dir) in
  (app t1 t2, match r2 with inl e => inl e | inr _ => inr tt end).

End Hdfs.

(** ** Sample inputs for the dispatcher and the HDFS setup *)

Module Samples.
Import Worker.

Definition sample_map_func : string -> exn + (list string * string) :=
  run_jar_map_func "hdfs://nn:8020/tmp/cache/out/executor_output"
    (fun f d => ["/opt/jdk/bin/java"; "--output-directory"; d; f])
    (fun _ => Completed 0 "done" "") "0:00:02".

Definition sample_logs : list string :=
  ["hdfs://nn:8020/eventlogs/app-1"; "hdfs://nn:8020/eventlogs/app-2"].

Definition rm_fails_world (c : list string) : run_outcome :=
  if String.eqb (hd "" (tl c)) "dfs" && String.eqb (hd "" (tl (tl c))) "-rm"
  then Completed 1 "" "No such file or directory"
  else Completed 0 "" "".

End Samples.

(** ** More Python helpers *)

(** Python exceptions beyond [exn], raised by the entry points, the executor
    set-up and the HDFS manager. *)
Inductive py_error : Type :=
| Raised (e : exn)
(** [AttributeError: type object '<owner>' has no attribute '<attr>'] *)
| AttributeError (owner attr : string)
(** [next()] on an exhausted generator *)
| StopIteration
(** [os.path.basename(None)]: [TypeError: expected str, bytes or
    os.PathLike object, not NoneType] *)
| TypeError (msg : string)
(** [xs[-1]] on an empty list *)
| IndexError
| AssertionError (msg : string)
(** [os.environ[key]] for an unset variable *)
| KeyError (key : string)
(** [from <module> import <name>] where the module defines no such name *)
| ImportError (name module : string).

(** An environment variable as Python tests it ([if not v:]): unset and
    empty are both false. *)
Definition truthy (v : option string) : option string :=
  match v with
  | Some s => if String.eqb s "" then None else Some s
  | None => None
  end.

(** [needle in hay] on strings. *)
Fixpoint str_in (needle hay : string) : bool :=
  prefix needle hay ||
  match hay with
  | EmptyString => false
  | String _ r => str_in needle r
  end.

(** Every character of [s] satisfies [p]. *)
Fixpoint all_chars (p : ascii -> bool) (s : string) : bool :=
  match s with
  | EmptyString => true
  | String c r => p c && all_chars p r
  end.

(** A character other than ['/']. *)
Definition no_slash (c : ascii) : bool := negb (Ascii.eqb c "/").

Definition first_char (s : string) : option ascii :=
  match s with
  | EmptyString => None
  | String c _ => Some c
  end.

Fixpoint last_char (s : string) : option ascii :=
  match s with
  | EmptyString => None
  | String c EmptyString => Some c
  | String _ r => last_char r
  end.

(** [str.isspace] on one character (code points below 256): tab to
    carriage return, the four separators 0x1c-0x1f, space, NEL and NBSP. *)
Definition is_space (c : ascii) : bool :=
  let n := nat_of_ascii c in
  (((9 <=? n) && (n <=? 13)) || ((28 <=? n) && (n <=? 32)) || (n =? 133) || (n =? 160))%nat.

Fixpoint lstrip (s : string) : string :=
  match s with
  | EmptyString => EmptyString
  | String c r => if is_space c then lstrip r else s
  end.

Fixpoint rstrip (s : string) : string :=
  match s with
  | EmptyString => EmptyString
  | String c r =>
      let r' := rstrip r in
      if String.eqb r' "" && is_space c then EmptyString else String c r'
  end.

(** [s.strip()] *)
Definition strip (s : string) : string := rstrip (lstrip s).

(** [os.path.join(a, *ps)] (posixpath): an absolute component restarts the
    path. *)
Definition os_path_join (a : string) (ps : list string) : string :=
  fold_left (fun path b =>
               if prefix "/" b then b
               else if String.eqb path "" || ends_with "/" path then path ++ b
               else path ++ "/" ++ b) ps a.

(** The text before the first character satisfying [p], and the rest from
    that character on. *)
Fixpoint break_at (p : ascii -> bool) (s : string) : string * string :=
  match s with
  | EmptyString => (EmptyString, EmptyString)
  | String c r =>
      if p c then (EmptyString, s)
      else let '(a, b) := break_at p r in (String c a, b)
  end.

(** [xs[i] = v] for an index within bounds. *)
Fixpoint list_set {A} (i : nat) (v : A) (xs : list A) : list A :=
  match xs, i with
  | [], _ => []
  | _ :: r, O => v :: r
  | x :: r, S i' => x :: list_set i' v r
  end.

(** [next(i for i, x in enumerate(xs) if p(x))], or [None] when the
    generator is exhausted. *)
Fixpoint first_index {A} (p : A -> bool) (xs : list A) : option nat :=
  match xs with
  | [] => None
  | x :: r => if p x then Some O else option_map S (first_index p r)
  end.

(** ** [Utilities] ([utils.py]) *)

Module Utilities.

(** The attributes class [Utilities] defines (besides those every class
    inherits from [object]). *)
Definition attrs : list string :=
  ["_DISTRIBUTED_TOOLS_CACHE_DIR"; "_EXECUTOR_OUTPUT_DIR_NAME"; "_SPARK_CONTEXT";
   "run_cmd"; "check_cmd_availability"; "get_executor_output_path"].

(** [Utilities.<name>]: a name the class does not define raises. *)
Definition getattr (name : string) : py_error + unit :=
  if existsb (String.eqb name) attrs then inr tt else inl (AttributeError "Utilities" name).

Definition DISTRIBUTED_TOOLS_CACHE_DIR : string :=
  "/tmp/spark_rapids_user_tools_distributed_cache".

Definition EXECUTOR_OUTPUT_DIR_NAME : string := "executor_output".

(** [Utilities.get_executor_output_path(output_folder_name)] *)
Definition get_executor_output_path (output_folder_name : string) : string :=
  os_path_join DISTRIBUTED_TOOLS_CACHE_DIR [output_folder_name; EXECUTOR_OUTPUT_DIR_NAME].

(** [Utilities.run_cmd(command, description)]: the [CompletedProcess]
    ([returncode], [stdout], [stderr]) or the exception raised. *)
Definition run_cmd (command : list string) (description : option string)
    (outcome : run_outcome) : exn + (Z * string * string) :=
  match outcome with
  | Completed rc out err =>
      if Z.eqb rc 0 then inr (rc, out, err)
      else match truthy description with
           | Some d => inl (CmdError d err)
           | None => inl (CmdError (str_join " " command) err)
           end
  | LaunchFailed msg => inl (OSError msg)
  | DecodeFailed msg => inl (UnicodeDecodeError msg)
  end.

(** [Utilities.check_cmd_availability(cmd, check_cmd)]: the commands run,
    and the outcome. [FileNotFoundError] carries the message here. *)
Definition check_cmd_availability (world : list string -> run_outcome) (cmd : string)
    (check_cmd : list string) : list (list string) * (exn + unit) :=
  let error_msg := cmd ++ " is not available" in
  let run_and_check (command : list string) : exn + unit :=
    match run_cmd command None (world command) with
    | inl e => inl e
    | inr (returncode, _, _) =>
        if negb (Z.eqb returncode 0) then inl (FileNotFoundError error_msg) else inr tt
    end in
  (* try: ... except FileNotFoundError as e: raise e *)
  match run_and_check ["which"; cmd] with
  | inl e => ([["which"; cmd]], inl e)
  | inr _ => ([["which"; cmd]; check_cmd], run_and_check check_cmd)
  end.

End Utilities.

(** ** [HdfsManager] construction and [InputFsManager] ([hdfs_manager.py]) *)

Module HdfsManager.

(** [HdfsManager.get_hdfs_nn_addr()]: the commands run, and the address. *)
Definition get_hdfs_nn_addr (hadoop_home : option string)
    (world : list string -> run_outcome) : list (list string) * (exn + string) :=
  let '(t, r) := Hdfs.run_hdfs_command hadoop_home world
                   ["getconf"; "-confKey"; "fs.defaultFS"] "Getting HDFS NameNode address" in
  (t, match r with inl e => inl e | inr (stdout, _) => inr (strip stdout) end).

Record manager : Type := mkManager {
  output_folder_name : string;
  hdfs_base_dir : string;
  hadoop_home : option string
}.

(** [HdfsManager(output_folder_name)], i.e. [__post_init__]. The field
    [hadoop_home] defaults to [os.getenv("HADOOP_HOME")] read when the class
    is defined ([class_hadoop_home]); [_run_hdfs_command] reads it again
    when it runs ([env_hadoop_home]). [cache_dir] and
    [executor_output_dir_name] are what [Utilities.get_cache_dir()] and
    [Utilities.get_executor_output_dir_name()] would return. *)
Definition post_init (class_hadoop_home env_hadoop_home : option string)
    (world : list string -> run_outcome) (output_folder_name : string)
    (cache_dir executor_output_dir_name : string)
    : list (list string) * (py_error + manager) :=
  match truthy class_hadoop_home with
  | None => ([], inl (Raised (ValueError "HADOOP_HOME environment variable is not set")))
  | Some _ =>
      let '(t, r) := get_hdfs_nn_addr env_hadoop_home world in
      match r with
      | inl e => (t, inl (Raised e))
      | inr nn_addr =>
          match Utilities.getattr "get_cache_dir" with
          | inl e => (t, inl e)
          | inr _ =>
              match Utilities.getattr "get_executor_output_dir_name" with
              | inl e => (t, inl e)
              | inr _ =>
                  (t, inr (mkManager output_folder_name
                             (nn_addr ++ os_path_join cache_dir
                                           [output_folder_name; executor_output_dir_name])
                             class_hadoop_home))
              end
          end
      end
  end.

(** [InputFsManager.extract_directory]: for an [hdfs://] URL, the [path] of
    [urlparse]. [urlsplit] drops tab, CR and LF, takes the scheme before the
    first [':'], the authority up to the first ['/'], ['?'] or ['#'], refuses
    an authority with an unmatched bracket, then cuts the fragment at ['#']
    and the query at ['?']; [hdfs] takes no [';'] parameters. (Newer Pythons
    also validate a bracketed IPv6 host and a non-ASCII authority; neither is
    modelled.) *)
Definition is_unsafe (c : ascii) : bool :=
  Ascii.eqb c (ascii_of_nat 9) || Ascii.eqb c (ascii_of_nat 13) || Ascii.eqb c (ascii_of_nat 10).

Definition is_netloc_delim (c : ascii) : bool :=
  Ascii.eqb c "/" || Ascii.eqb c "?" || Ascii.eqb c "#".

Fixpoint remove_unsafe (s : string) : string :=
  match s with
  | EmptyString => EmptyString
  | String c r => if is_unsafe c then remove_unsafe r else String c (remove_unsafe r)
  end.

Definition has_char (c : ascii) (s : string) : bool :=
  negb (all_chars (fun d => negb (Ascii.eqb d c)) s).

Definition urlparse_path (url : string) : py_error + string :=
  let url := remove_unsafe url in
  let url := match snd (break_at (fun c => Ascii.eqb c ":") url) with
             | String _ r => r
             | EmptyString => url
             end in
  let '(netloc, url) :=
    if prefix "//" url then break_at is_netloc_delim (substring 2 (String.length url - 2) url)
    else (EmptyString, url) in
  if xorb (has_char "[" netloc) (has_char "]" netloc)
  then inl (Raised (ValueError "Invalid IPv6 URL"))
  else
    let url := fst (break_at (fun c => Ascii.eqb c "#") url) in
    let url := fst (break_at (fun c => Ascii.eqb c "?") url) in
    inr url.

Definition extract_directory (directory : string) : py_error + string :=
  if prefix "hdfs://" directory then urlparse_path directory else inr directory.

(** Characters [urlsplit] keeps in a host (with its port): no netloc
    delimiter, bracket, tab, CR or LF; and in a path: no ['?'], ['#'], tab,
    CR or LF. *)
Definition host_ok (c : ascii) : bool :=
  negb (is_netloc_delim c || Ascii.eqb c "[" || Ascii.eqb c "]" || is_unsafe c).

Definition path_ok (c : ascii) : bool :=
  negb (Ascii.eqb c "?" || Ascii.eqb c "#" || is_unsafe c).

End HdfsManager.

(** ** [DistributedJarExecutor] set-up and entry points ([main.py], [runner.py]) *)

Module Main.

(** [_get_jar_command(file_path, executor_output_dir)]: the JVM arguments
    after the update (the list is [submission_cmd.jvm_args], updated in
    place) and the command. [spark_files_get] is [SparkFiles.get];
    [spark_home] is the module's [SPARK_HOME], rendered as [None] when
    unset; [java_home] is [os.environ['JAVA_HOME']]. [jvm_log_file] is
    [submission_cmd.jvm_log_file], which stays [None] unless the command's
    construction met a JVM argument containing [Dlog4j.configuration]. *)
Definition none_path_msg : string :=
  "expected str, bytes or os.PathLike object, not NoneType".

Definition get_jar_command (spark_files_get : string -> string)
    (spark_home java_home : option string) (dependencies_paths : list string)
    (jvm_log_file : option string) (jar_main_class : string) (rapids_args : list string)
    (jvm_args : list string) (file_path executor_output_dir : string)
    : py_error + (list string * list string) :=
  let local_deps_path :=
    app (map (fun dep => spark_files_get (Worker.basename dep)) dependencies_paths)
        [match spark_home with Some h => h | None => "None" end ++ "/jars/*"] in
  let jars := str_join ":" local_deps_path in
  match java_home with
  | None => inl (KeyError "JAVA_HOME")
  | Some jh =>
      let java_exec := jh ++ "/bin/java" in
      match jvm_log_file with
      | None => inl (TypeError none_path_msg)
      | Some log_file =>
          let local_jvm_log_file := spark_files_get (Worker.basename log_file) in
          match first_index (str_in "-Dlog4j.configuration") jvm_args with
          | None => inl StopIteration
          | Some jvm_log_file_index =>
              let jvm_args := list_set jvm_log_file_index
                                ("-Dlog4j.configuration=file:" ++ local_jvm_log_file) jvm_args in
              let tool_args := ["--output-directory"; executor_output_dir; file_path] in
              inr (jvm_args,
                   app (java_exec :: jvm_args)
                       (app ["-cp"; jars; jar_main_class] (app rapids_args tool_args)))
          end
      end
  end.

(** [run_tool_as_spark_app]: [rest] is everything after the [HdfsManager]
    is built (the HDFS set-up, the event-log listing, the Spark job, the
    combine and the clean-up). *)
Definition run_tool_as_spark_app (output_folder : string)
    (class_hadoop_home env_hadoop_home : option string)
    (world : list string -> run_outcome) (cache_dir executor_output_dir_name : string)
    (rest : HdfsManager.manager -> list (list string) * (py_error + unit))
    : list (list string) * (py_error + unit) :=
  let output_folder_name := Worker.basename output_folder in
  let '(t, r) := HdfsManager.post_init class_hadoop_home env_hadoop_home world
                   output_folder_name cache_dir executor_output_dir_name in
  match r with
  | inl e => (t, inl e)
  | inr hdfs_manager => let '(t', r') := rest hdfs_manager in (app t t', r')
  end.

(** The top-level names of module [main]. *)
Definition module_names : list string :=
  ["os"; "subprocess"; "dataclass"; "field"; "datetime"; "List"; "SparkFiles";
   "ToolSubmissionCommand"; "HdfsManager"; "InputFsManager"; "ResultCombiner";
   "SparkJobManager"; "SPARK_HOME"; "HADOOP_HOME"; "JAVA_HOME"; "DistributedJarExecutor"].

(** [runner.py] run as a script: the lines printed, then the exit status or
    the exception. [main_import_failure] is an import of [main.py] itself
    that fails, if any; [path_exists] is [os.path.exists]; [run] is the call
    of [run_tool_as_spark_app]. *)
Definition runner (main_import_failure : option (string * string)) (argv : list string)
    (path_exists : string -> bool) (run : list string -> py_error + unit)
    : list string * (py_error + Z) :=
  match main_import_failure with
  | Some (name, module) => ([], inl (ImportError name module))
  | None =>
      if negb (existsb (String.eqb "run_tool_as_spark_app") module_names)
      then ([], inl (ImportError "run_tool_as_spark_app" "main"))
      else if negb (Nat.eqb (List.length argv) 5)
      then (["Usage: " ++ nth 0 argv "" ++
             " <spark_master> <tools_jar_path> <platform> <eventlogs_path>"], inr 1%Z)
      else
        let tools_jar_path := nth 2 argv "" in
        if negb (path_exists tools_jar_path)
        then (["Error: Tools JAR does not exist: " ++ tools_jar_path], inr 1%Z)
        else match run (tl argv) with
             | inl e => ([], inl e)
             | inr _ => ([], inr 0%Z)
             end
  end.

End Main.

(** ** [SparkJobManager] set-up ([spark_job_manager.py]) *)

Module JobSetup.

(** [SparkJobManager._set_env()] on [os.environ]. *)
Definition set_env (environ : list (string * string)) : list (string * string) :=
  match truthy (dict_get "SPARK_HOME" environ) with
  | Some spark_home =>
      let python_path := Worker.path_join spark_home "python" in
      dict_set "PYTHONPATH"
        (python_path ++ ":" ++
         match dict_get "PYTHONPATH" environ with Some p => p | None => "" end) environ
  | None => environ
  end.

(** [SparkJobManager._check_spark_submit_availability()] *)
Definition check_spark_submit_availability (world : list string -> run_outcome)
    : list (list string) * (exn + unit) :=
  Utilities.check_cmd_availability world "spark-submit" ["spark-submit"; "--version"].

End JobSetup.

(** ** What the combiner touches *)

Module CombinerScope.
Import Combiner.

(** The relative paths [fs.copy_files] copies from an item's raw metrics. *)
Definition item_raw_names (directory : node) : list string :=
  match directory with
  | Dir _ (inner :: _) =>
      match child "raw_metrics" inner with
      | Some (Dir _ cs) => map fst (children_files cs)
      | _ => []
      end
  | _ => []
  end.

Definition raw_names (root : node) : list string :=
  match root with
  | Dir _ items => flat_map item_raw_names items
  | File _ _ => []
  end.

Section Scope.
Context {L : Libs}.

Definition res_state {A} (r : res A) : state :=
  match r with Ok _ s => s | Err _ s => s end.

(** An action keeps [P] when it ends, returning or raising, in a state
    satisfying [P] whenever it starts in one. *)
Definition keeps {A} (P : state -> Prop) (m : M A) : Prop :=
  forall s, P s -> P (res_state (m s)).

(** Accumulator keys are tabular and structured file names, and every
    structured record is an object. *)
Definition acc_wf (s : state) : bool :=
  forallb (fun kv => ends_with ".csv" (fst kv)) (combined_dataframes s) &&
  forallb (fun kv => ends_with ".json" (fst kv) && forallb is_dict (snd kv))
    (combined_json_data s).

Definition wf (s : state) : Prop := acc_wf s = true.

(** The local output file [name] holds [v]. *)
Definition out_at (name : string) (v : option string) (s : state) : Prop :=
  dict_get name (out_files s) = v.

End Scope.

(** The contents of an item's log files named [name], in listing order. *)
Definition item_logs (name : string) (directory : node) : list string :=
  match directory with
  | Dir _ (Dir _ cs :: _) =>
      map snd (filter (fun f => String.eqb (fst f) name) (matching_files ".log" cs))
  | _ => []
  end.

(** A file [name] after appending [xs] to it, opened in mode ["a"] once per
    piece: created when absent, left as it is when there is nothing. *)
Definition append_all (old : option string) (xs : list string) : option string :=
  match xs with
  | [] => old
  | _ :: _ => Some (match old with Some c => c | None => "" end ++ fold_right String.append "" xs)
  end.

End CombinerScope.

(** ** More sample inputs *)

Module ExtraSamples.
Import Combiner Worker.

(** [hdfs getconf -confKey fs.defaultFS] answering with the address between
    blanks. *)
Definition getconf_world (_ : list string) : run_outcome :=
  Completed 0 "  hdfs://nn:8020 " "".

(** A worker on which [java] cannot be started for the command naming [bad]. *)
Definition launch_fails_on (bad : string) (c : list string) : run_outcome :=
  if existsb (String.eqb bad) c then LaunchFailed "No such file or directory: java"
  else Completed 0 "done" "".

Definition flaky_map_func : string -> exn + (list string * string) :=
  run_jar_map_func "hdfs://nn:8020/tmp/cache/out/executor_output"
    (fun f d => ["/opt/jdk/bin/java"; "--output-directory"; d; f])
    (launch_fails_on "hdfs://nn:8020/eventlogs/app-2") "0:00:02".

(** [SparkFiles.get] *)
Definition spark_files_get (name : string) : string :=
  "/tmp/spark-files/" ++ name.

(** Two items whose qualification output holds a tool log. *)
Definition two_logs_items : list node :=
  [demo_item "app-1" [File "runtime.properties" "p=1"; File "tool.log" "one";
                      Dir "raw_metrics" [File "metrics.csv" "m1"]];
   demo_item "app-2" [File "runtime.properties" "p=2"; File "tool.log" "two";
                      Dir "raw_metrics" []]].

Definition two_logs : node := Dir "executor_output" two_logs_items.

End ExtraSamples.

(** * Proofs *)

(** ** Dictionary lemmas *)

Lemma dict_get_set_eq {V} (k : string) (v : V) m :
  dict_get k (dict_set k v m) = Some v.
Proof.
  induction m as [|[k' v'] r IH]; simpl.
  - now rewrite String.eqb_refl.
  - destruct (String.eqb_spec k k') as [->|Hne]; simpl.
    + now rewrite String.eqb_refl.
    + apply String.eqb_neq in Hne. now rewrite Hne.
Qed.

Lemma dict_get_set_neq {V} (k k' : string) (v : V) m :
  k <> k' -> dict_get k (dict_set k' v m) = dict_get k m.
Proof.
  intros Hne. induction m as [|[k0 v0] r IH]; simpl.
  - apply String.eqb_neq in Hne. now rewrite Hne.
  - destruct (String.eqb_spec k' k0) as [->|Hne0]; simpl.
    + apply String.eqb_neq in Hne. now rewrite Hne.
    + destruct (String.eqb k k0); auto.
Qed.

Lemma fold_set_notin {V} (f : V -> string) (d : list (string * V)) o k :
  ~ In k (map fst d) ->
  dict_get k (fold_left (fun acc '(k', v) => dict_set k' (f v) acc) d o) = dict_get k o.
Proof.
  revert o. induction d as [|[k' v] r IH]; intros o Hnin; simpl in *; auto.
  rewrite IH by tauto. apply dict_get_set_neq. intros ->. tauto.
Qed.

Lemma fold_set_in {V} (f : V -> string) (d : list (string * V)) o1 o2 k :
  In k (map fst d) ->
  dict_get k (fold_left (fun acc '(k', v) => dict_set k' (f v) acc) d o1) =
  dict_get k (fold_left (fun acc '(k', v) => dict_set k' (f v) acc) d o2).
Proof.
  revert o1 o2. induction d as [|[k' v] r IH]; intros o1 o2 Hin; simpl in *.
  - contradiction.
  - destruct (in_dec String.string_dec k (map fst r)) as [Hr|Hr].
    + now apply IH.
    + destruct Hin as [->|Hin]; [|contradiction].
      rewrite !fold_set_notin by exact Hr.
      now rewrite !dict_get_set_eq.
Qed.

(** ** Result combiner *)

Module CombinerFacts.
Import Combiner.

Section Facts.
Context {L : Libs}.

Lemma same_res_refl_ok {A} (a : A) s1 s2 :
  accs s1 = accs s2 -> same_res (Ok a s1) (Ok a s2).
Proof. now split. Qed.

Lemma acc_determined_ret {A} (a : A) : acc_determined (ret a).
Proof. intros s1 s2 H. now split. Qed.

Lemma acc_determined_raise {A} e : acc_determined (A:=A) (raise e).
Proof. intros s1 s2 H. now split. Qed.

Lemma acc_determined_bind {A B} (m : M A) (k : A -> M B) :
  acc_determined m -> (forall a, acc_determined (k a)) -> acc_determined (bind m k).
Proof.
  intros Hm Hk s1 s2 H. unfold bind.
  specialize (Hm s1 s2 H).
  destruct (m s1) as [a1 t1|e1 t1], (m s2) as [a2 t2|e2 t2]; simpl in Hm;
    try contradiction; destruct Hm as [-> Ht].
  - now apply Hk.
  - now split.
Qed.

Lemma acc_determined_gets {A} (f : state -> A) :
  (forall s1 s2, accs s1 = accs s2 -> f s1 = f s2) -> acc_determined (gets f).
Proof. intros Hf s1 s2 H. split; auto. Qed.

Lemma acc_determined_modify (g : state -> state) :
  (forall s1 s2, accs s1 = accs s2 -> accs (g s1) = accs (g s2)) ->
  acc_determined (modify g).
Proof. intros Hg s1 s2 H. split; auto. Qed.

Lemma acc_determined_mfor {A} (xs : list A) (f : A -> M unit) :
  (forall x, acc_determined (f x)) -> acc_determined (mfor xs f).
Proof.
  intros Hf. induction xs as [|x r IH]; simpl.
  - apply acc_determined_ret.
  - apply acc_determined_bind; auto.
Qed.

Lemma accs_dataframes s1 s2 :
  accs s1 = accs s2 -> combined_dataframes s1 = combined_dataframes s2.
Proof. unfold accs. congruence. Qed.

Lemma accs_json_data s1 s2 :
  accs s1 = accs s2 -> combined_json_data s1 = combined_json_data s2.
Proof. unfold accs. congruence. Qed.

Create HintDb accdet.
#[local] Hint Resolve acc_determined_ret acc_determined_raise acc_determined_bind
  acc_determined_mfor accs_dataframes accs_json_data : accdet.

Lemma list_dir_det n : acc_determined (list_dir n).
Proof. destruct n; simpl; auto with accdet. Qed.

Lemma get_matching_files_det inner suf : acc_determined (get_matching_files inner suf).
Proof.
  unfold get_matching_files. apply acc_determined_bind; auto using list_dir_det with accdet.
Qed.

Lemma csv_file_step_det f : acc_determined (csv_file_step f).
Proof.
  destruct f as [name contents]. unfold csv_file_step.
  destruct (read_csv contents) as [df|]; auto with accdet.
  apply acc_determined_bind.
  - apply acc_determined_gets. auto with accdet.
  - intros d. destruct (dict_get name d); apply acc_determined_modify;
      intros s1 s2 H; unfold accs in *; simpl; congruence.
Qed.

Lemma json_file_step_det f : acc_determined (json_file_step f).
Proof.
  destruct f as [name contents]. unfold json_file_step.
  destruct (json_load contents) as [data|]; auto with accdet.
  destruct (is_list_of_dicts data) as [records|]; auto with accdet.
  apply acc_determined_bind.
  - apply acc_determined_gets. auto with accdet.
  - intros d. destruct (dict_get name d); apply acc_determined_modify;
      intros s1 s2 H; unfold accs in *; simpl; congruence.
Qed.

(** Appending to the log files and copying raw metrics touch only the
    output files. *)
Lemma log_file_step_det f : acc_determined (log_file_step f).
Proof.
  destruct f as [name contents]. intros s1 s2 H. now split.
Qed.

Lemma raw_metrics_process_det inner : acc_determined (raw_metrics_process inner).
Proof.
  unfold raw_metrics_process.
  destruct (child "raw_metrics" inner) as [[nm c|nm cs]|]; auto with accdet.
  intros s1 s2 H. now split.
Qed.

Lemma runtime_properties_process_det inner :
  acc_determined (runtime_properties_process inner).
Proof.
  unfold runtime_properties_process.
  destruct (child "runtime.properties" inner) as [[nm c|nm cs]|]; auto with accdet.
  intros s1 s2 H. now split.
Qed.

#[local] Hint Resolve list_dir_det get_matching_files_det csv_file_step_det
  json_file_step_det log_file_step_det raw_metrics_process_det
  runtime_properties_process_det : accdet.

Lemma process_item_det d : acc_determined (process_item d).
Proof.
  unfold process_item. apply acc_determined_bind; [auto with accdet|].
  intros [|inner rest]; [auto with accdet|].
  apply acc_determined_bind.
  - apply acc_determined_gets. auto with accdet.
  - intros [|x r]; apply acc_determined_bind; auto with accdet;
      intros _; unfold csv_process, json_process, log_process;
      repeat (apply acc_determined_bind; [auto with accdet|intros ?]);
      auto with accdet.
Qed.

(** [combine_results] on a directory listing: the item loop, then the two
    writes. *)
Lemma combine_results_eq r ds s :
  combine_results (Dir r ds) s =
  match mfor ds process_item s with
  | Ok _ m => Ok tt (finalize m)
  | Err e m => Err e m
  end.
Proof.
  unfold combine_results, bind at 1. simpl.
  unfold bind. destruct (mfor ds process_item s); reflexivity.
Qed.

Lemma mfor_skip {A} (f : A -> M unit) x :
  (forall s, f x s = Ok tt s) ->
  forall pre post s, mfor (pre ++ x :: post) f s = mfor (pre ++ post) f s.
Proof.
  intros Hx pre. induction pre as [|y pre IH]; intros post s; simpl.
  - unfold bind. now rewrite Hx.
  - unfold bind. destruct (f y s); auto.
Qed.

Lemma mfor_app_err {A} (f : A -> M unit) pre x post s s1 e s2 :
  mfor pre f s = Ok tt s1 -> f x s1 = Err e s2 ->
  mfor (pre ++ x :: post) f s = Err e s2.
Proof.
  revert s. induction pre as [|y pre IH]; intros s Hpre Hx; simpl in *.
  - unfold ret in Hpre. injection Hpre as <-. unfold bind. now rewrite Hx.
  - unfold bind in *. destruct (f y s); [now apply IH | discriminate].
Qed.

(** C5: an item whose output directory lists nothing is skipped before any
    of the five processors runs: it leaves the state as it is, and the
    combine behaves exactly as if the item directory were absent from the
    listing. *)
Theorem empty_item_dir_skipped r pre item post s :
  process_item (Dir item []) s = Ok tt s /\
  combine_results (Dir r (pre ++ Dir item [] :: post)) s =
  combine_results (Dir r (pre ++ post)) s.
Proof.
  split; [reflexivity|].
  rewrite !combine_results_eq.
  now rewrite (mfor_skip process_item (Dir item []) (fun _ => eq_refl)).
Qed.

(** C3: two runs of the combiner over the same item directories, the second
    one over the output left by the first, build the same accumulators and
    leave byte-identical merged tabular and structured files: each run
    starts from fresh accumulators, and the merged files are overwritten. *)
Theorem combine_twice_identical root out pc s1 :
  run_combiner root out pc = Ok tt s1 ->
  exists s2,
    run_combiner root (out_files s1) (props_copy s1) = Ok tt s2 /\
    combined_dataframes s2 = combined_dataframes s1 /\
    combined_json_data s2 = combined_json_data s1 /\
    (forall name,
        In name (map fst (combined_dataframes s1)) \/
        In name (map fst (combined_json_data s1)) ->
        dict_get name (out_files s2) = dict_get name (out_files s1)).
Proof.
  unfold run_combiner. intros H1.
  destruct root as [nm c|r ds]; [discriminate|].
  rewrite combine_results_eq in *.
  pose proof (acc_determined_mfor ds process_item process_item_det
                (new_combiner out pc) (new_combiner (out_files s1) (props_copy s1))
                eq_refl) as Hdet.
  destruct (mfor ds process_item (new_combiner out pc)) as [u1 m1|e1 m1];
    [|discriminate].
  injection H1 as <-.
  destruct (mfor ds process_item (new_combiner (out_files (finalize m1))
                                    (props_copy (finalize m1)))) as [u2 m2|e2 m2];
    simpl in Hdet; [|contradiction].
  destruct Hdet as [_ Hacc].
  pose proof (accs_dataframes _ _ Hacc) as Hd.
  pose proof (accs_json_data _ _ Hacc) as Hj.
  exists (finalize m2). split; [reflexivity|].
  simpl. split; [congruence|]. split; [congruence|].
  intros name Hin. unfold write_json_files, write_csv_files.
  rewrite <- Hd, <- Hj.
  destruct (in_dec String.string_dec name (map fst (combined_json_data m1))) as [Hj1|Hj1].
  - apply fold_set_in. exact Hj1.
  - rewrite !(fold_set_notin _ _ _ _ Hj1).
    apply fold_set_in. tauto.
Qed.

(** C4: a structured file whose top level is a list of records extends the
    accumulator entry of its file name with its records, in order; a file
    whose top level is anything else raises [MalformedRecordFile], and that
    error ends the whole combine. *)
Theorem json_records_appended_or_malformed (name contents : string) :
  (forall s records,
      json_load contents = Some (JArr records) -> forallb is_dict records = true ->
      json_file_step (name, contents) s =
      Ok tt (set_json_data
               (dict_set name (match dict_get name (combined_json_data s) with
                               | Some old => (old ++ records)%list
                               | None => records
                               end) (combined_json_data s)) s)) /\
  (forall s data,
      json_load contents = Some data -> is_list_of_dicts data = None ->
      json_file_step (name, contents) s = Err (MalformedRecordFile name) s) /\
  (forall r pre item inner_name cs rest post jpre jpost data s0 s1 s2 s3,
      json_load contents = Some data -> is_list_of_dicts data = None ->
      matching_files ".json" cs = (jpre ++ (name, contents) :: jpost)%list ->
      mfor pre process_item s0 = Ok tt s1 ->
      (d <- gets combined_dataframes ;;
       (match d with [] => runtime_properties_process (Dir inner_name cs)
                | _ :: _ => ret tt end) ;;
       csv_process (Dir inner_name cs)) s1 = Ok tt s2 ->
      mfor jpre json_file_step s2 = Ok tt s3 ->
      combine_results
        (Dir r (pre ++ Dir item (Dir inner_name cs :: rest) :: post)%list) s0 =
      Err (MalformedRecordFile name) s3).
Proof.
  split; [|split].
  - intros s records Hload Hall. simpl. rewrite Hload. simpl. rewrite Hall.
    unfold bind, gets. destruct (dict_get name (combined_json_data s)); reflexivity.
  - intros s data Hload Hbad. simpl. rewrite Hload, Hbad. reflexivity.
  - intros r pre item inner_name cs rest post jpre jpost data s0 s1 s2 s3
      Hload Hbad Hfiles Hpre Hbefore Hjpre.
    assert (Hjson : json_process (Dir inner_name cs) s2 = Err (MalformedRecordFile name) s3).
    { unfold json_process, get_matching_files. simpl. unfold bind at 1. simpl.
      unfold ret. rewrite Hfiles.
      apply (mfor_app_err _ _ _ _ _ s3 (MalformedRecordFile name) s3 Hjpre).
      simpl. rewrite Hload, Hbad. reflexivity. }
    rewrite combine_results_eq.
    rewrite (mfor_app_err _ _ _ _ _ s1 (MalformedRecordFile name) s3 Hpre); [reflexivity|].
    unfold process_item. simpl list_dir. unfold ret, bind at 1.
    revert Hbefore. unfold bind, gets. intros Hbefore.
    destruct (combined_dataframes s1).
    + destruct (runtime_properties_process (Dir inner_name cs) s1); [|discriminate].
      rewrite Hbefore. rewrite Hjson. reflexivity.
    + unfold ret in *. rewrite Hbefore. rewrite Hjson. reflexivity.
Qed.

End Facts.

(** C1: the runtime-properties copy is guarded by the tabular accumulator
    being empty, not by the item being the first one. With tabular files in
    the first item, the first item's file is the one copied; with none, every
    item copies its file over the previous one and the last item's content
    remains. *)
Theorem runtime_properties_copy_guard :
  (exists s, run_combiner (L:=demo_libs) two_reports [] None = Ok tt s /\
             props_copy s = Some "p=1") /\
  (exists s, run_combiner (L:=demo_libs) three_props_items [] None = Ok tt s /\
             props_copy s = Some "p=3").
Proof. split; eexists; split; reflexivity. Qed.

(** Tabular and structured merge of two items, as the combiner does it. *)
Example two_reports_merged :
  exists s, run_combiner (L:=demo_libs) two_reports [] None = Ok tt s /\
    combined_dataframes s = [("app_summary.csv", ["A"; "B"])] /\
    combined_json_data s =
      [("report.json", [JObj [("id", JNum 1)]; JObj [("id", JNum 2)]])].
Proof. eexists; repeat split; reflexivity. Qed.

End CombinerFacts.

(** ** HDFS setup *)

Module HdfsFacts.
Import Hdfs.

(** C9: the removal of the previous output directory never decides the
    outcome: whatever the removal does (fails, finds nothing to remove,
    or HADOOP_HOME is unset), [init_setup] goes on to the [mkdir -p]
    command, and its outcome is exactly that command's outcome. *)
Theorem stale_removal_best_effort hadoop_home world base :
  fst (init_setup hadoop_home world base) =
    app (fst (run_hdfs_command hadoop_home world (rm_args base) (rm_description base)))
        (fst (run_hdfs_command hadoop_home world (mkdir_args base) (mkdir_description base))) /\
  snd (init_setup hadoop_home world base) =
    match snd (run_hdfs_command hadoop_home world (mkdir_args base) (mkdir_description base)) with
    | inl e => inl e
    | inr _ => inr tt
    end /\
  (forall world',
     (forall c, hd "" (tl c) <> "dfs" \/ hd "" (tl (tl c)) <> "-rm" -> world' c = world c) ->
     snd (init_setup hadoop_home world' base) = snd (init_setup hadoop_home world base)).
Proof.
  unfold init_setup.
  destruct (run_hdfs_command hadoop_home world (rm_args base) (rm_description base)) as [t1 r1].
  destruct (run_hdfs_command hadoop_home world (mkdir_args base) (mkdir_description base))
    as [t2 r2] eqn:Hmk.
  split; [reflexivity|]. split; [reflexivity|].
  intros world' Hw.
  destruct (run_hdfs_command hadoop_home world' (rm_args base) (rm_description base)) as [t1' r1'].
  assert (Heq : run_hdfs_command hadoop_home world' (mkdir_args base) (mkdir_description base) =
                run_hdfs_command hadoop_home world (mkdir_args base) (mkdir_description base)).
  { unfold run_hdfs_command.
    destruct hadoop_home as [[|a h]|]; try reflexivity.
    rewrite Hw; [reflexivity|]. right. simpl. discriminate. }
  rewrite Heq, Hmk. reflexivity.
Qed.

(** The directory is already gone: [hdfs dfs -rm -r] exits non-zero, the
    setup still creates the directory and succeeds. *)
Example removal_of_missing_dir_ignored :
  init_setup (Some "/opt/hadoop")
    (fun c => if String.eqb (nth 2 c "") "-rm" then Completed 1 "" "No such file or directory"
              else Completed 0 "" "")
    "/tmp/cache/out/executor_output" =
  ([["/opt/hadoop/bin/hdfs"; "dfs"; "-rm"; "-r"; "/tmp/cache/out/executor_output"];
    ["/opt/hadoop/bin/hdfs"; "dfs"; "-mkdir"; "-p"; "/tmp/cache/out/executor_output"]],
   inr tt).
Proof. reflexivity. Qed.

End HdfsFacts.

(** ** Job dispatcher *)

Lemma string_app_assoc (a b c : string) : (a ++ b) ++ c = a ++ b ++ c.
Proof. induction a as [|x a IH]; simpl; congruence. Qed.

Lemma str_join_cons sep x xs :
  xs <> [] -> str_join sep (x :: xs) = x ++ sep ++ str_join sep xs.
Proof. destruct xs; [contradiction|reflexivity]. Qed.

(** [sep.join(init + [last])]: every element of [init] followed by the
    separator, then [last]. *)
Lemma str_join_snoc sep init last :
  str_join sep (app init [last]) =
  fold_right String.append "" (map (fun b => b ++ sep) init) ++ last.
Proof.
  induction init as [|a init IH]; [reflexivity|].
  simpl app. rewrite str_join_cons by (destruct init; discriminate).
  rewrite IH. simpl. now rewrite !string_app_assoc.
Qed.

Module DispatcherFacts.
Import Dispatcher.

Section Facts.
Context {A : Type}.

Lemma batches_aux_one fuel (xs : list A) :
  (List.length xs <= fuel)%nat -> batches_aux fuel 1 xs = map (fun x => [x]) xs.
Proof.
  revert xs. induction fuel as [|fuel IH]; intros xs Hlen.
  - destruct xs; [reflexivity|simpl in Hlen; lia].
  - destruct xs as [|x r]; [reflexivity|].
    simpl. rewrite IH; [reflexivity|]. simpl in Hlen. lia.
Qed.

Lemma firstn_one_seq {B} (ys : list B) :
  map (fun i => firstn 1 (skipn i ys)) (seq 0 (List.length ys)) = map (fun y => [y]) ys.
Proof.
  induction ys as [|y ys IH]; [reflexivity|].
  cbn [List.length seq map]. rewrite <- seq_shift, map_map. simpl. f_equal. exact IH.
Qed.

Lemma slice_self {B} (ys : list B) :
  slice ys (List.length ys) = map (fun y => [y]) ys.
Proof.
  unfold slice, positions. rewrite map_map.
  rewrite <- firstn_one_seq.
  apply map_ext_in. intros i Hi. apply in_seq in Hi.
  assert (Hn : List.length ys <> 0%nat) by lia.
  rewrite Nat.div_mul, Nat.div_mul by exact Hn.
  replace (S i - i)%nat with 1%nat by lia. reflexivity.
Qed.

(** With as many slices as items, [parallelize] puts each item in a
    partition of its own. *)
Lemma parallelize_singletons (input : list A) :
  input <> [] -> parallelize input (List.length input) = inr (map (fun x => [x]) input).
Proof.
  intros Hne. destruct (List.length input) as [|k] eqn:Hlen.
  - destruct input; [contradiction|discriminate].
  - unfold parallelize. rewrite <- Hlen.
    rewrite Nat.div_same by lia. simpl Nat.min. simpl Nat.max.
    unfold batches. rewrite batches_aux_one by lia.
    replace (List.length input) with (List.length (map (fun x : A => [x]) input))
      by apply length_map.
    rewrite slice_self, map_map, map_map. reflexivity.
Qed.

Lemma map_collect_cons {B} (f : A -> exn + B) p r :
  map_collect f (p :: r) =
  match map_all f p with
  | inl e => inl (JobFailed e)
  | inr bs => match map_collect f r with inl e => inl e | inr cs => inr (app bs cs) end
  end.
Proof. reflexivity. Qed.

Lemma map_collect_singletons {B} (f : A -> exn + B) (xs : list A) :
  map_collect f (map (fun x => [x]) xs) =
  match map_all f xs with inl e => inl (JobFailed e) | inr rs => inr rs end.
Proof.
  induction xs as [|x r IH]; [reflexivity|].
  simpl map. rewrite map_collect_cons, IH. simpl.
  destruct (f x); [reflexivity|].
  destruct (map_all f r); reflexivity.
Qed.

Lemma map_all_length {B} (f : A -> exn + B) xs rs :
  map_all f xs = inr rs -> List.length rs = List.length xs.
Proof.
  revert rs. induction xs as [|x r IH]; intros rs H; simpl in H.
  - now injection H as <-.
  - destruct (f x); [discriminate|].
    destruct (map_all f r) eqn:E; [discriminate|].
    injection H as <-. simpl. f_equal. now apply IH.
Qed.

Lemma map_collect_empty {B} (f : A -> exn + B) parts :
  concat parts = [] -> map_collect f parts = inr [].
Proof.
  induction parts as [|p ps IH]; intros H; [reflexivity|].
  simpl in H. apply app_eq_nil in H as [-> H].
  rewrite map_collect_cons. simpl. now rewrite IH.
Qed.

(** C8: for a non-empty list of [n] items, [parallelize] makes [n]
    partitions of one item each; [submit_map_job] returns one output
    directory per item whenever it returns, and it does return, with the
    items' directories in input order, when every item's function returns. *)
Theorem one_partition_per_item (f : A -> exn + (list string * string)) input t :
  input <> [] ->
  parallelize input (List.length input) = inr (map (fun x => [x]) input) /\
  (forall m dirs, submit_map_job parallelize f input t = (m, inr dirs) ->
                  List.length dirs = List.length input) /\
  (forall rs, map_all f input = inr rs ->
              snd (submit_map_job parallelize f input t) = inr (map snd rs)).
Proof.
  intros Hne. pose proof (parallelize_singletons input Hne) as Hpar.
  split; [exact Hpar|].
  unfold submit_map_job. rewrite Hpar, map_collect_singletons.
  destruct (map_all f input) as [e|rs] eqn:Hall.
  - split; [intros m dirs H; discriminate|intros rs H; discriminate].
  - pose proof (map_all_length f input rs Hall) as Hlen.
    assert (Hrs : rs <> []) by (intros ->; destruct input; [contradiction|discriminate]).
    destruct rs as [|r0 rs']; [contradiction|]. simpl unzip2.
    split.
    + intros m dirs H. injection H as _ <-. rewrite <- Hlen. simpl. now rewrite length_map.
    + intros rs H. injection H as <-. reflexivity.
Qed.

(** C7: the manifest written is one block per item, each item's log lines
    joined by newlines, the blocks separated by a blank line, and then the
    line [Job took <duration> to complete]. *)
Theorem run_manifest_format (f : A -> exn + (list string * string)) input t rs :
  input <> [] -> map_all f input = inr rs ->
  exists blocks last,
    map fst rs = app blocks [last] /\
    fst (submit_map_job parallelize f input t) =
    Some (fold_right String.append "" (map (fun b => str_join nl b ++ nl ++ nl) blocks)
          ++ str_join nl last ++ nl ++ "Job took " ++ t ++ " to complete").
Proof.
  intros Hne Hall.
  pose proof (map_all_length f input rs Hall) as Hlen.
  assert (Hrs : map fst rs <> []).
  { intros H. apply map_eq_nil in H. subst rs. destruct input; [contradiction|discriminate]. }
  destruct (exists_last Hrs) as [blocks [last Hsplit]].
  exists blocks, last. split; [exact Hsplit|].
  unfold submit_map_job. rewrite parallelize_singletons by exact Hne.
  rewrite map_collect_singletons, Hall.
  destruct rs as [|r0 rs']; [contradiction|]. simpl unzip2. simpl fst.
  f_equal. unfold write_output.
  change (fst r0 :: map fst rs') with (map fst (r0 :: rs')). rewrite Hsplit.
  rewrite map_app. change (map (str_join nl) [last]) with [str_join nl last].
  rewrite str_join_snoc, map_map.
  now rewrite string_app_assoc.
Qed.

(** C10: on the empty list, [submit_map_job] raises and writes no
    manifest. The exception is PySpark's: [_convert_input_to_rdd] asks
    [parallelize] for [len([]) = 0] slices, and [len(c) // numSlices]
    raises [ZeroDivisionError] before any job runs and before anything is
    unzipped. On a non-empty list [parallelize] does not raise. *)
Theorem empty_input_raises (f : A -> exn + (list string * string)) t :
  submit_map_job parallelize f [] t = (None, inl ZeroDivisionError) /\
  (forall input : list A, input <> [] ->
     exists parts, parallelize input (List.length input) = inr parts).
Proof.
  split; [reflexivity|].
  intros input Hne. eexists. exact (parallelize_singletons input Hne).
Qed.

End Facts.

(** C10 blames the wrong step: on the empty list the exception is
    [parallelize]'s [ZeroDivisionError], not the [ValueError] that
    unpacking [zip()] of no results into two names would raise. *)
Lemma empty_input_cause_counterexample :
  submit_map_job parallelize Samples.sample_map_func [] "0:00:00" =
    (None, inl ZeroDivisionError) /\
  unzip2 (@nil (list string * string)) =
    inl (ValueError "not enough values to unpack (expected 2, got 0)") /\
  ZeroDivisionError <> ValueError "not enough values to unpack (expected 2, got 0)".
Proof. split; [reflexivity|]. split; [reflexivity|]. discriminate. Qed.

End DispatcherFacts.

(** ** A failing item fails the job *)

Module JobFailureFacts.
Import Dispatcher.

Section Facts.
Context {A B : Type}.

Lemma map_all_inl (f : A -> exn + B) xs e :
  map_all f xs = inl e -> exists y, In y xs /\ f y = inl e.
Proof.
  induction xs as [|x r IH]; simpl; [discriminate|].
  destruct (f x) as [e'|b] eqn:Hx.
  - intros H. injection H as <-. exists x. auto.
  - destruct (map_all f r) as [e'|bs]; [|discriminate].
    intros H. injection H as <-. destruct (IH eq_refl) as [y [Hy Hfy]]. exists y. auto.
Qed.

Lemma map_all_some_inl (f : A -> exn + B) xs x ex :
  In x xs -> f x = inl ex -> exists e, map_all f xs = inl e.
Proof.
  induction xs as [|y r IH]; [intros []|]. intros [->|Hin] Hx; simpl.
  - rewrite Hx. eauto.
  - destruct (f y); [eauto|]. destruct (IH Hin Hx) as [e ->]. eauto.
Qed.

End Facts.

(** When the function raises on some item, the job fails with the
    exception of an item on which it raises. *)
Lemma some_item_fails_job {A} (f : A -> exn + (list string * string)) items total x ex :
  In x items -> f x = inl ex ->
  exists y e, In y items /\ f y = inl e /\
    submit_map_job parallelize f items total = (None, inl (JobFailed e)).
Proof.
  intros Hin Hx.
  assert (Hne : items <> []) by (intros ->; destruct Hin).
  destruct (map_all_some_inl f items x ex Hin Hx) as [e He].
  destruct (map_all_inl f items e He) as [y [Hy Hfy]].
  exists y, e. split; [exact Hy|]. split; [exact Hfy|].
  unfold submit_map_job. rewrite DispatcherFacts.parallelize_singletons by exact Hne.
  rewrite DispatcherFacts.map_collect_singletons, He. reflexivity.
Qed.

End JobFailureFacts.

(** ** Worker executor *)

Module WorkerFacts.
Import Worker.

(** What [_submit_jar_cmd] does, by what its command meets. *)
Lemma submit_jar_cmd_cases cmd o t :
  submit_jar_cmd cmd o t =
  match o with
  | Completed rc out err =>
      inr (start_line cmd :: app (if Z.eqb rc 0
            then ("Command succeeded with stdout:" ++ nl ++ out)
                 :: nonempty_line "Command stderr:" err
            else failed_line rc
                 :: app (nonempty_line "Command stdout:" out)
                        (nonempty_line "Command stderr:" err)) [time_line t])
  | LaunchFailed msg => inl (OSError msg)
  | DecodeFailed msg => inl (UnicodeDecodeError msg)
  end.
Proof.
  destruct o as [rc out err|msg|msg]; try reflexivity.
  unfold submit_jar_cmd, subprocess_run_check.
  destruct (Z.eqb rc 0); reflexivity.
Qed.

(** What the worker returns for one event log, by what its command meets:
    the two lines naming the log and the output directory, then the lines
    of [_submit_jar_cmd]; or the exception. *)
Lemma run_jar_map_func_cases base gjc world t fp :
  run_jar_map_func base gjc world t fp =
  match world (gjc fp (path_join base (basename fp))) with
  | Completed rc out err =>
      inr (app ["Processing " ++ fp;
                "Executor output directory: " ++ path_join base (basename fp)]
               (start_line (gjc fp (path_join base (basename fp))) :: app (if Z.eqb rc 0
            then ("Command succeeded with stdout:" ++ nl ++ out)
                 :: nonempty_line "Command stderr:" err
            else failed_line rc
                 :: app (nonempty_line "Command stdout:" out)
                        (nonempty_line "Command stderr:" err)) [time_line t]),
           path_join base (basename fp))
  | LaunchFailed msg => inl (OSError msg)
  | DecodeFailed msg => inl (UnicodeDecodeError msg)
  end.
Proof.
  unfold run_jar_map_func. rewrite submit_jar_cmd_cases.
  destruct (world _); reflexivity.
Qed.

Lemma run_jar_map_func_inl base gjc world t fp e :
  run_jar_map_func base gjc world t fp = inl e ->
  exists msg, e = OSError msg \/ e = UnicodeDecodeError msg.
Proof.
  rewrite run_jar_map_func_cases.
  destruct (world _) as [rc out err|msg|msg]; intros H; try discriminate;
    injection H as <-; eauto.
Qed.

(** C2, as the code has it: a non-zero exit is caught and narrated in the
    returned lines (exit code, and stdout and stderr when non-empty). A
    command that cannot be started makes [subprocess.run] raise an
    [OSError], and output that does not decode makes it raise
    [UnicodeDecodeError]; neither is caught, both leave [_submit_jar_cmd]
    and the worker. Then the Spark job fails: whenever the command of some
    event log cannot be started or its output does not decode,
    [submit_map_job] raises the exception of such an item and writes no
    manifest. *)
Theorem nonzero_exit_captured_launch_error_raised cmd o t :
  match o with
  | Completed rc out err =>
      exists logs, submit_jar_cmd cmd o t = inr logs /\
        (rc <> 0%Z ->
         In (failed_line rc) logs /\
         (out <> "" -> In ("Command stdout:" ++ nl ++ out) logs) /\
         (err <> "" -> In ("Command stderr:" ++ nl ++ err) logs))
  | LaunchFailed msg => submit_jar_cmd cmd o t = inl (OSError msg)
  | DecodeFailed msg => submit_jar_cmd cmd o t = inl (UnicodeDecodeError msg)
  end /\
  (forall base gjc world (items : list string) total x,
     In x items ->
     (exists msg, world (gjc x (path_join base (basename x))) = LaunchFailed msg \/
                  world (gjc x (path_join base (basename x))) = DecodeFailed msg) ->
     exists y e, In y items /\
       run_jar_map_func base gjc world t y = inl e /\
       (exists msg, e = OSError msg \/ e = UnicodeDecodeError msg) /\
       Dispatcher.submit_map_job Dispatcher.parallelize (run_jar_map_func base gjc world t)
         items total = (None, inl (JobFailed e))).
Proof.
  split.
  - destruct o as [rc out err|msg|msg]; [|reflexivity|reflexivity].
    unfold submit_jar_cmd, subprocess_run_check.
    destruct (Z.eqb_spec rc 0) as [->|Hrc].
    + eexists. split; [reflexivity|]. intros H. contradiction.
    + eexists. split; [reflexivity|]. intros _. unfold nonempty_line.
      destruct (String.eqb_spec out "") as [Ho|Ho];
        destruct (String.eqb_spec err "") as [He|He];
        simpl; repeat split; intros; try contradiction; auto 10.
  - intros base gjc world items total x Hin [msg Hw].
    assert (Hx : exists ex, run_jar_map_func base gjc world t x = inl ex).
    { rewrite run_jar_map_func_cases. destruct Hw as [Hw|Hw]; rewrite Hw; eauto. }
    destruct Hx as [ex Hx].
    destruct (JobFailureFacts.some_item_fails_job _ items total x ex Hin Hx)
      as [y [e [Hy [He Hjob]]]].
    exists y, e. repeat split; auto.
    exact (run_jar_map_func_inl _ _ _ _ _ _ He).
Qed.

(** C2 fails where the command cannot be started, or where its output does
    not decode even though it exited non-zero: the exception leaves the
    worker, the Spark job fails, and [submit_map_job] raises. *)
Lemma launch_error_escapes_worker :
  submit_jar_cmd ["/opt/jdk/bin/java"; "-cp"; "tools.jar"]
    (LaunchFailed "No such file or directory") "0:00:00.004" =
    inl (OSError "No such file or directory") /\
  Dispatcher.submit_map_job Dispatcher.parallelize
    (run_jar_map_func "hdfs://nn:8020/tmp/cache/out/executor_output"
       (fun f d => ["/opt/jdk/bin/java"; "--output-directory"; d; f])
       (fun _ => LaunchFailed "No such file or directory") "0:00:00.004")
    ["hdfs://nn:8020/eventlogs/app-1"] "0:00:03" =
    (None, inl (JobFailed (OSError "No such file or directory"))) /\
  submit_jar_cmd ["/opt/jdk/bin/java"; "-cp"; "tools.jar"]
    (DecodeFailed "invalid continuation byte") "0:00:02" =
    inl (UnicodeDecodeError "invalid continuation byte").
Proof. repeat split; reflexivity. Qed.

(** C6, as the code has it: for a command that runs to completion with
    output that decodes, the lines of [_submit_jar_cmd] are the start line,
    then either the success line with stdout (and a stderr line when
    stderr is non-empty) or the failure line with the exit code (and
    stdout and stderr lines when non-empty), then the processing time as
    the last line; the worker puts its two lines naming the event log and
    the output directory before them. A command that cannot be started, or
    whose output does not decode, yields no lines: the exception leaves
    the worker. *)
Theorem completed_run_narration cmd o t :
  submit_jar_cmd cmd o t =
  match o with
  | Completed rc out err =>
      inr (start_line cmd :: app (if Z.eqb rc 0
            then ("Command succeeded with stdout:" ++ nl ++ out)
                 :: nonempty_line "Command stderr:" err
            else failed_line rc
                 :: app (nonempty_line "Command stdout:" out)
                        (nonempty_line "Command stderr:" err)) [time_line t])
  | LaunchFailed msg => inl (OSError msg)
  | DecodeFailed msg => inl (UnicodeDecodeError msg)
  end /\
  (forall base gjc world fp,
     run_jar_map_func base gjc world t fp =
     match world (gjc fp (path_join base (basename fp))) with
     | Completed rc out err =>
         inr (app ["Processing " ++ fp;
                   "Executor output directory: " ++ path_join base (basename fp)]
                  (start_line (gjc fp (path_join base (basename fp))) :: app (if Z.eqb rc 0
            then ("Command succeeded with stdout:" ++ nl ++ out)
                 :: nonempty_line "Command stderr:" err
            else failed_line rc
                 :: app (nonempty_line "Command stdout:" out)
                        (nonempty_line "Command stderr:" err)) [time_line t]),
              path_join base (basename fp))
     | LaunchFailed msg => inl (OSError msg)
     | DecodeFailed msg => inl (UnicodeDecodeError msg)
     end).
Proof.
  split; [apply submit_jar_cmd_cases|].
  intros base gjc world fp. apply run_jar_map_func_cases.
Qed.

(** C6 fails: a command that cannot be started, or whose output does not
    decode, yields no lines at all (the exception leaves the worker), and
    a failure with empty output narrates neither stdout nor stderr. *)
Lemma narration_counterexample :
  submit_jar_cmd ["/opt/jdk/bin/java"] (LaunchFailed "Permission denied") "0:00:00.002" =
    inl (OSError "Permission denied") /\
  submit_jar_cmd ["/opt/jdk/bin/java"] (DecodeFailed "invalid start byte") "0:00:01" =
    inl (UnicodeDecodeError "invalid start byte") /\
  submit_jar_cmd ["/opt/jdk/bin/java"] (Completed 1 "" "") "0:00:01.5" =
    inr [start_line ["/opt/jdk/bin/java"]; failed_line 1; time_line "0:00:01.5"].
Proof. repeat split; reflexivity. Qed.

End WorkerFacts.

(** ** Instances at concrete inputs *)

Module Instances.
Import Combiner CombinerFacts Worker WorkerFacts Dispatcher DispatcherFacts Hdfs HdfsFacts
  Samples.

Lemma combine_twice_identical_witness :
  exists s1, run_combiner (L:=demo_libs) two_reports [] None = Ok tt s1 /\
  exists s2,
    run_combiner (L:=demo_libs) two_reports (out_files s1) (props_copy s1) = Ok tt s2 /\
    combined_dataframes s2 = combined_dataframes s1 /\
    combined_json_data s2 = combined_json_data s1 /\
    (forall name,
        In name (map fst (combined_dataframes s1)) \/
        In name (map fst (combined_json_data s1)) ->
        dict_get name (out_files s2) = dict_get name (out_files s1)).
Proof.
  eexists. split; [reflexivity|].
  apply (combine_twice_identical (L:=demo_libs) two_reports [] None). reflexivity.
Defined.

Lemma json_records_appended_or_malformed_witness :
  json_file_step (L:=demo_libs) ("report.json", "[{id:2}]")
    (mkState [] [("report.json", [JObj [("id", JNum 1)]])] [] None) =
    Ok tt (mkState [] [("report.json", [JObj [("id", JNum 1)]; JObj [("id", JNum 2)]])]
             [] None) /\
  json_file_step (L:=demo_libs) ("report.json", "{id:3}") (new_combiner [] None) =
    Err (MalformedRecordFile "report.json") (new_combiner [] None).
Proof.
  split.
  - rewrite (proj1 (json_records_appended_or_malformed (L:=demo_libs) "report.json" "[{id:2}]")
               (mkState [] [("report.json", [JObj [("id", JNum 1)]])] [] None)
               [JObj [("id", JNum 2)]] eq_refl eq_refl).
    reflexivity.
  - exact (proj1 (proj2 (json_records_appended_or_malformed (L:=demo_libs)
                           "report.json" "{id:3}")) (new_combiner [] None)
             (JObj [("id", JNum 3)]) eq_refl eq_refl).
Defined.

Lemma nonzero_exit_captured_launch_error_raised_witness :
  (exists logs,
    submit_jar_cmd ["/opt/jdk/bin/java"; "-cp"; "tools.jar"] (Completed 2 "partial" "boom")
      "0:00:02" = inr logs /\
    (2%Z <> 0%Z ->
     In (failed_line 2) logs /\
     ("partial" <> "" -> In ("Command stdout:" ++ nl ++ "partial") logs) /\
     ("boom" <> "" -> In ("Command stderr:" ++ nl ++ "boom") logs))) /\
  exists y e,
    In y ["hdfs://nn:8020/eventlogs/app-1"; "hdfs://nn:8020/eventlogs/app-2";
          "hdfs://nn:8020/eventlogs/app-3"] /\
    ExtraSamples.flaky_map_func y = inl e /\
    (exists msg, e = OSError msg \/ e = UnicodeDecodeError msg) /\
    submit_map_job parallelize ExtraSamples.flaky_map_func
      ["hdfs://nn:8020/eventlogs/app-1"; "hdfs://nn:8020/eventlogs/app-2";
       "hdfs://nn:8020/eventlogs/app-3"] "0:00:05" = (None, inl (JobFailed e)).
Proof.
  destruct (nonzero_exit_captured_launch_error_raised
              ["/opt/jdk/bin/java"; "-cp"; "tools.jar"] (Completed 2 "partial" "boom") "0:00:02")
    as [H1 H2].
  split; [exact H1|].
  exact (H2 "hdfs://nn:8020/tmp/cache/out/executor_output"
           (fun f d => ["/opt/jdk/bin/java"; "--output-directory"; d; f])
           (ExtraSamples.launch_fails_on "hdfs://nn:8020/eventlogs/app-2")
           ["hdfs://nn:8020/eventlogs/app-1"; "hdfs://nn:8020/eventlogs/app-2";
            "hdfs://nn:8020/eventlogs/app-3"] "0:00:05" "hdfs://nn:8020/eventlogs/app-2"
           (or_intror (or_introl eq_refl))
           (ex_intro _ "No such file or directory: java" (or_introl eq_refl))).
Defined.

Lemma one_partition_per_item_witness :
  sample_logs <> [] /\
  parallelize sample_logs 2 = inr [["hdfs://nn:8020/eventlogs/app-1"];
                                   ["hdfs://nn:8020/eventlogs/app-2"]] /\
  exists rs, map_all sample_map_func sample_logs = inr rs /\
    snd (submit_map_job parallelize sample_map_func sample_logs "0:00:05") = inr (map snd rs).
Proof.
  assert (Hne : sample_logs <> []) by discriminate.
  split; [exact Hne|]. split.
  - exact (proj1 (one_partition_per_item sample_map_func sample_logs "0:00:05" Hne)).
  - eexists. split; [reflexivity|].
    apply (proj2 (proj2 (one_partition_per_item sample_map_func sample_logs "0:00:05" Hne))).
    reflexivity.
Defined.

Lemma run_manifest_format_witness :
  exists rs, map_all sample_map_func sample_logs = inr rs /\
  exists blocks last,
    map fst rs = app blocks [last] /\
    fst (submit_map_job parallelize sample_map_func sample_logs "0:00:05") =
    Some (fold_right String.append "" (map (fun b => str_join nl b ++ nl ++ nl) blocks)
          ++ str_join nl last ++ nl ++ "Job took " ++ "0:00:05" ++ " to complete").
Proof.
  eexists. split; [reflexivity|].
  apply run_manifest_format; [discriminate|reflexivity].
Defined.

Lemma stale_removal_best_effort_witness :
  snd (init_setup (Some "/opt/hadoop") rm_fails_world "/tmp/cache/out/executor_output") =
  snd (init_setup (Some "/opt/hadoop") (fun _ => Completed 0 "" "")
         "/tmp/cache/out/executor_output").
Proof.
  apply (proj2 (proj2 (stale_removal_best_effort (Some "/opt/hadoop") (fun _ => Completed 0 "" "")
                         "/tmp/cache/out/executor_output"))).
  intros c Hc. unfold rm_fails_world.
  destruct (String.eqb_spec (hd "" (tl c)) "dfs");
    destruct (String.eqb_spec (hd "" (tl (tl c))) "-rm"); simpl; try reflexivity.
  destruct Hc; contradiction.
Defined.

End Instances.

(** ** Text helpers *)

Module TextFacts.

Lemma append_empty_r (s : string) : s ++ "" = s.
Proof. induction s as [|c s IH]; simpl; congruence. Qed.

Lemma all_chars_app p (a b : string) :
  all_chars p (a ++ b) = all_chars p a && all_chars p b.
Proof. induction a as [|c a IH]; simpl; [reflexivity|]. rewrite IH. apply andb_assoc. Qed.

Lemma all_chars_impl (p q : ascii -> bool) s :
  (forall c, p c = true -> q c = true) -> all_chars p s = true -> all_chars q s = true.
Proof.
  intros Hpq. induction s as [|c s IH]; simpl; [reflexivity|].
  intros H. apply andb_prop in H as [H1 H2]. now rewrite Hpq, IH.
Qed.

Lemma prefix_app (s t : string) : prefix s (s ++ t) = true.
Proof.
  induction s as [|c s IH]; simpl.
  - destruct t; reflexivity.
  - destruct (ascii_dec c c); [exact IH|contradiction].
Qed.

Lemma str_in_unfold (needle hay : string) :
  str_in needle hay =
  prefix needle hay || match hay with EmptyString => false | String _ r => str_in needle r end.
Proof. destruct hay; reflexivity. Qed.

Lemma str_in_app (s t : string) : str_in s (s ++ t) = true.
Proof. rewrite str_in_unfold, prefix_app. reflexivity. Qed.

Lemma lstrip_spec s :
  exists lead, s = lead ++ lstrip s /\ all_chars is_space lead = true /\
  (forall c, first_char (lstrip s) = Some c -> is_space c = false).
Proof.
  induction s as [|c r IH]; simpl.
  - exists "". repeat split. discriminate.
  - destruct (is_space c) eqn:Hc.
    + destruct IH as [lead [H1 [H2 H3]]]. exists (String c lead). simpl.
      rewrite Hc, H2. repeat split; [congruence|exact H3].
    + exists "". repeat split. simpl. intros c' H. injection H as <-. exact Hc.
Qed.

Lemma rstrip_spec s :
  exists trail, s = rstrip s ++ trail /\ all_chars is_space trail = true /\
  (forall c, last_char (rstrip s) = Some c -> is_space c = false).
Proof.
  induction s as [|c r IH]; simpl.
  - exists "". repeat split. discriminate.
  - destruct IH as [trail [H1 [H2 H3]]].
    destruct (String.eqb_spec (rstrip r) "") as [He|He]; destruct (is_space c) eqn:Hc; simpl.
    + exists (String c trail). simpl. rewrite Hc, H2. rewrite He in H1. simpl in H1.
      repeat split; [congruence|intros ? ?; discriminate].
    + exists trail. rewrite He in *. simpl in H1. repeat split; [simpl; congruence|exact H2|].
      intros c' H. injection H as <-. exact Hc.
    + exists trail. repeat split; [congruence|exact H2|].
      destruct (rstrip r); [contradiction|exact H3].
    + exists trail. repeat split; [congruence|exact H2|].
      destruct (rstrip r); [contradiction|exact H3].
Qed.

Lemma rstrip_first s c :
  first_char s = Some c -> is_space c = false -> first_char (rstrip s) = Some c.
Proof.
  destruct s as [|c' r]; simpl; [discriminate|]. intros H Hc. injection H as <-.
  rewrite Hc, andb_false_r. reflexivity.
Qed.

(** [s.strip()] removes exactly the leading and trailing whitespace. *)
Lemma strip_spec s :
  exists lead trail, s = lead ++ strip s ++ trail /\
    all_chars is_space lead = true /\ all_chars is_space trail = true /\
    (forall c, first_char (strip s) = Some c -> is_space c = false) /\
    (forall c, last_char (strip s) = Some c -> is_space c = false).
Proof.
  destruct (lstrip_spec s) as [lead [H1 [H2 H3]]].
  destruct (rstrip_spec (lstrip s)) as [trail [H4 [H5 H6]]].
  exists lead, trail. unfold strip. repeat split; auto.
  - rewrite H1 at 1. rewrite H4 at 1. reflexivity.
  - intros c Hc. destruct (first_char (lstrip s)) as [c0|] eqn:Hf.
    + rewrite (rstrip_first _ c0 Hf (H3 c0 eq_refl)) in Hc. injection Hc as <-. auto.
    + destruct (lstrip s); [discriminate|discriminate].
Qed.

End TextFacts.

(** ** Utilities *)

Module UtilitiesFacts.
Import Utilities.

(** [check_cmd_availability] succeeds exactly when [which <cmd>] and the
    check command both run to completion with output that decodes, and
    exit with status 0. A non-zero exit of [which] raises [run_cmd]'s
    generic error naming the command, and output of [which] that does not
    decode raises [UnicodeDecodeError]; in both cases the check command is
    not run. The method's own [FileNotFoundError(f"{cmd} is not
    available")] is never raised: [run_cmd] runs with [check=True], so the
    return code it hands back is always 0. *)
Theorem check_cmd_availability_outcome world cmd check_cmd :
  (snd (check_cmd_availability world cmd check_cmd) = inr tt <->
   (exists o e, world ["which"; cmd] = Completed 0 o e) /\
   (exists o e, world check_cmd = Completed 0 o e)) /\
  (forall rc out err, rc <> 0%Z -> world ["which"; cmd] = Completed rc out err ->
   check_cmd_availability world cmd check_cmd =
     ([["which"; cmd]], inl (CmdError ("which " ++ cmd) err))) /\
  (forall msg, world ["which"; cmd] = DecodeFailed msg ->
   check_cmd_availability world cmd check_cmd =
     ([["which"; cmd]], inl (UnicodeDecodeError msg))) /\
  snd (check_cmd_availability world cmd check_cmd) <>
    inl (FileNotFoundError (cmd ++ " is not available")).
Proof.
  unfold check_cmd_availability, run_cmd.
  destruct (world ["which"; cmd]) as [rc o e|m|m] eqn:Hw.
  - destruct (Z.eqb_spec rc 0) as [->|Hrc].
    + simpl. destruct (world check_cmd) as [rc2 o2 e2|m2|m2] eqn:Hc.
      * destruct (Z.eqb_spec rc2 0) as [->|Hrc2]; simpl.
        -- split; [split; [intros _; split; eauto|intros _; reflexivity]|].
           split; [intros rc out err Hne H; injection H; intros; subst; contradiction|].
           split; [intros ? H; discriminate H|discriminate].
        -- split; [split; [discriminate|intros [_ [o' [e' H]]]; injection H; intros; subst; contradiction]|].
           split; [intros rc out err Hne H; injection H; intros; subst; contradiction|].
           split; [intros ? H; discriminate H|discriminate].
      * simpl. split; [split; [discriminate|intros [_ [o' [e' H]]]; discriminate]|].
        split; [intros rc out err Hne H; injection H; intros; subst; contradiction|].
        split; [intros ? H; discriminate H|discriminate].
      * simpl. split; [split; [discriminate|intros [_ [o' [e' H]]]; discriminate]|].
        split; [intros rc out err Hne H; injection H; intros; subst; contradiction|].
        split; [intros ? H; discriminate H|discriminate].
    + simpl.
      split; [split; [discriminate|intros [[o' [e' H]] _]; injection H; intros; subst; contradiction]|].
      split; [intros rc' out err _ H; injection H as -> -> ->; reflexivity|].
      split; [intros ? H; discriminate H|discriminate].
  - simpl. split; [split; [discriminate|intros [[o' [e' H]] _]; discriminate]|].
    split; [intros rc out err _ H; discriminate|].
    split; [intros ? H; discriminate H|discriminate].
  - simpl. split; [split; [discriminate|intros [[o' [e' H]] _]; discriminate]|].
    split; [intros rc out err _ H; discriminate|].
    split; [intros ? H; injection H as ->; reflexivity|discriminate].
Qed.

End UtilitiesFacts.

(** ** HDFS manager *)

Module HdfsManagerFacts.
Import HdfsManager.

Lemma truthy_nonempty a h : truthy (Some (String a h)) = Some (String a h).
Proof. reflexivity. Qed.

(** The NameNode address handed back is the output of
    [hdfs getconf -confKey fs.defaultFS] (which exited with status 0) with
    the surrounding whitespace removed: no leading or trailing whitespace is
    left, in particular no trailing newline. *)
Theorem namenode_address_stripped hadoop_home world addr :
  snd (get_hdfs_nn_addr hadoop_home world) = inr addr ->
  exists h out err lead trail,
    truthy hadoop_home = Some h /\
    world [h ++ "/bin/hdfs"; "getconf"; "-confKey"; "fs.defaultFS"] = Completed 0 out err /\
    out = lead ++ addr ++ trail /\
    all_chars is_space lead = true /\ all_chars is_space trail = true /\
    (forall c, first_char addr = Some c -> is_space c = false) /\
    (forall c, last_char addr = Some c -> is_space c = false).
Proof.
  unfold get_hdfs_nn_addr, Hdfs.run_hdfs_command, Hdfs.run_cmd.
  destruct hadoop_home as [[|a h]|]; simpl; try discriminate.
  destruct (world _) as [rc out err|m|m] eqn:Hw; simpl; [|discriminate|discriminate].
  destruct (Z.eqb_spec rc 0) as [->|]; simpl; [|discriminate].
  intros H. injection H as <-.
  destruct (TextFacts.strip_spec out) as [lead [trail [H1 [H2 [H3 [H4 H5]]]]]].
  exists (String a h), out, err, lead, trail. repeat split; auto.
Qed.

Lemma post_init_raises class_hh env_hh world name cache_dir exec_name :
  exists e, snd (post_init class_hh env_hh world name cache_dir exec_name) = inl e.
Proof.
  unfold post_init. destruct (truthy class_hh); [|eexists; reflexivity].
  destruct (get_hdfs_nn_addr env_hh world) as [t [e|nn]]; eexists; reflexivity.
Qed.

(** Building an [HdfsManager] never succeeds. It raises [ValueError] when
    HADOOP_HOME is unset, the wrapped error of [hdfs getconf] when that
    command fails, and otherwise [AttributeError], because [Utilities]
    defines no [get_cache_dir]. No HDFS command other than [getconf] is
    run. *)
Theorem hdfs_manager_never_built class_hh env_hh world name cache_dir exec_name :
  exists e,
    snd (post_init class_hh env_hh world name cache_dir exec_name) = inl e /\
    (e = Raised (ValueError "HADOOP_HOME environment variable is not set") \/
     (exists inner, e = Raised (HdfsCommandError "Getting HDFS NameNode address" inner)) \/
     e = AttributeError "Utilities" "get_cache_dir") /\
    (fst (post_init class_hh env_hh world name cache_dir exec_name) = [] \/
     exists h, fst (post_init class_hh env_hh world name cache_dir exec_name) =
               [[h ++ "/bin/hdfs"; "getconf"; "-confKey"; "fs.defaultFS"]]).
Proof.
  unfold post_init. destruct (truthy class_hh) as [ch|].
  - unfold get_hdfs_nn_addr, Hdfs.run_hdfs_command, Hdfs.run_cmd.
    destruct env_hh as [[|a h]|]; simpl.
    + eexists. split; [reflexivity|]. split; [left; reflexivity|left; reflexivity].
    + destruct (world _) as [rc out err|m|m]; simpl.
      * destruct (Z.eqb rc 0); simpl.
        -- eexists. split; [reflexivity|]. split; [right; right; reflexivity|].
           right. exists (String a h). reflexivity.
        -- eexists. split; [reflexivity|]. split; [right; left; eauto|].
           right. exists (String a h). reflexivity.
      * eexists. split; [reflexivity|]. split; [right; left; eauto|].
        right. exists (String a h). reflexivity.
      * eexists. split; [reflexivity|]. split; [right; left; eauto|].
        right. exists (String a h). reflexivity.
    + eexists. split; [reflexivity|]. split; [left; reflexivity|left; reflexivity].
  - eexists. split; [reflexivity|]. split; [left; reflexivity|left; reflexivity].
Qed.

End HdfsManagerFacts.

(** ** Entry points *)

Module MainFacts.
Import Main.

(** [run_tool_as_spark_app] always raises while building its
    [HdfsManager]: whatever follows (the HDFS set-up, the Spark job, the
    combine) is never run. Its commands and its outcome are the same as if
    nothing followed. *)
Theorem run_tool_stops_at_hdfs_manager output_folder class_hh env_hh world cache_dir
    exec_name rest :
  run_tool_as_spark_app output_folder class_hh env_hh world cache_dir exec_name rest =
  run_tool_as_spark_app output_folder class_hh env_hh world cache_dir exec_name
    (fun _ => ([], inr tt)) /\
  exists e,
    snd (run_tool_as_spark_app output_folder class_hh env_hh world cache_dir exec_name rest) =
    inl e.
Proof.
  unfold run_tool_as_spark_app.
  destruct (HdfsManagerFacts.post_init_raises class_hh env_hh world
              (Worker.basename output_folder) cache_dir exec_name) as [e He].
  cbv zeta.
  destruct (HdfsManager.post_init _ _ _ _ _ _) as [t r]. simpl in He. subst r.
  split; [reflexivity|]. eexists; reflexivity.
Qed.

(** [runner.py] never gets past its imports: [main] defines no top-level
    [run_tool_as_spark_app], so [from main import run_tool_as_spark_app]
    raises [ImportError] whatever the arguments. No usage line is printed,
    and the tool is never called. *)
Theorem runner_fails_at_import main_import_failure argv path_exists run :
  exists name module,
    runner main_import_failure argv path_exists run = ([], inl (ImportError name module)).
Proof.
  destruct main_import_failure as [[name module]|]; simpl; eauto.
Qed.

End MainFacts.

Module ListFacts.

Lemma first_index_some {A} (p : A -> bool) xs i :
  first_index p xs = Some i ->
  exists pre x post, xs = app pre (x :: post) /\ List.length pre = i /\ p x = true /\
    forallb (fun y => negb (p y)) pre = true.
Proof.
  revert i. induction xs as [|y r IH]; simpl; intros i H; [discriminate|].
  destruct (p y) eqn:Hy.
  - injection H as <-. exists [], y, r. auto.
  - destruct (first_index p r) as [j|]; simpl in H; [|discriminate].
    injection H as <-. destruct (IH j eq_refl) as [pre [x [post [H1 [H2 [H3 H4]]]]]].
    exists (y :: pre), x, post. simpl. rewrite Hy, H4. subst. auto.
Qed.

Lemma first_index_none {A} (p : A -> bool) xs :
  first_index p xs = None <-> forallb (fun y => negb (p y)) xs = true.
Proof.
  induction xs as [|y r IH]; simpl; [tauto|].
  destruct (p y); simpl; [split; discriminate|].
  destruct (first_index p r); simpl; rewrite <- IH; split; congruence.
Qed.

Lemma first_index_app {A} (p : A -> bool) pre x post :
  forallb (fun y => negb (p y)) pre = true -> p x = true ->
  first_index p (app pre (x :: post)) = Some (List.length pre).
Proof.
  induction pre as [|y r IH]; simpl; intros H1 H2; [now rewrite H2|].
  apply andb_prop in H1 as [Hy Hr]. destruct (p y); [discriminate|].
  now rewrite IH.
Qed.

Lemma list_set_app {A} (v x : A) pre post :
  list_set (List.length pre) v (app pre (x :: post)) = app pre (v :: post).
Proof. induction pre as [|y r IH]; simpl; [reflexivity|]. f_equal; exact IH. Qed.

End ListFacts.

Module JarCommandFacts.
Import Main.

(** [_get_jar_command] fails in three ways only, checked in this order:
    [os.environ['JAVA_HOME']] raises [KeyError] when JAVA_HOME is unset,
    [os.path.basename] raises [TypeError] when the command has no JVM log
    file ([None]), and [next(...)] raises [StopIteration] when no JVM
    argument contains [-Dlog4j.configuration]. *)
Theorem get_jar_command_failures sfg spark_home java_home deps log main_class rargs jvm
    file_path out_dir e :
  get_jar_command sfg spark_home java_home deps log main_class rargs jvm file_path out_dir = inl e <->
  (java_home = None /\ e = KeyError "JAVA_HOME") \/
  (java_home <> None /\ log = None /\ e = TypeError none_path_msg) \/
  (java_home <> None /\ log <> None /\
   forallb (fun a => negb (str_in "-Dlog4j.configuration" a)) jvm = true /\ e = StopIteration).
Proof.
  unfold get_jar_command. destruct java_home as [jh|].
  - destruct log as [lf|].
    + destruct (first_index _ jvm) as [i|] eqn:Hi.
      * split; [discriminate|]. intros [[? _]|[[_ [? _]]|[_ [_ [H _]]]]]; try discriminate.
        apply ListFacts.first_index_none in H. congruence.
      * apply ListFacts.first_index_none in Hi. split.
        -- intros H. injection H as <-. right. right. repeat split; auto; discriminate.
        -- intros [[? _]|[[_ [? _]]|[_ [_ [_ ->]]]]]; try discriminate. reflexivity.
    + split.
      * intros H. injection H as <-. right. left. repeat split; auto. discriminate.
      * intros [[? _]|[[_ [_ ->]]|[_ [H _]]]]; [discriminate|reflexivity|contradiction].
  - split.
    + intros H. injection H as <-. left. auto.
    + intros [[_ ->]|[[H _]|[H _]]]; [reflexivity|contradiction|contradiction].
Qed.

(** On success, the updated JVM arguments are the old ones with the first
    argument containing [-Dlog4j.configuration] (and only it) replaced by
    [-Dlog4j.configuration=file:<local log file>]. The command is the Java
    executable, those arguments, the class path and tool arguments, and
    ends with [--output-directory <dir> <file>]. Called again on the
    updated arguments, the method finds the same position, leaves the
    arguments as they are, and builds the same command for the new file
    and directory. *)
Theorem get_jar_command_log4j sfg spark_home java_home deps log main_class rargs jvm
    file_path out_dir jvm' cmd :
  get_jar_command sfg spark_home java_home deps log main_class rargs jvm file_path out_dir =
    inr (jvm', cmd) ->
  exists jh lf pre arg post prefix,
    java_home = Some jh /\
    log = Some lf /\
    jvm = app pre (arg :: post) /\
    str_in "-Dlog4j.configuration" arg = true /\
    forallb (fun a => negb (str_in "-Dlog4j.configuration" a)) pre = true /\
    jvm' = app pre (("-Dlog4j.configuration=file:" ++ sfg (Worker.basename lf)) :: post) /\
    cmd = app ((jh ++ "/bin/java") :: jvm') (app prefix ["--output-directory"; out_dir; file_path]) /\
    forall file_path2 out_dir2,
      get_jar_command sfg spark_home java_home deps log main_class rargs jvm' file_path2 out_dir2 =
      inr (jvm', app ((jh ++ "/bin/java") :: jvm')
                   (app prefix ["--output-directory"; out_dir2; file_path2])).
Proof.
  unfold get_jar_command. destruct java_home as [jh|]; [|discriminate].
  destruct log as [lf|]; [|discriminate].
  destruct (first_index _ jvm) as [i|] eqn:Hi; [|discriminate].
  intros H. injection H as <- <-.
  destruct (ListFacts.first_index_some _ _ _ Hi) as [pre [arg [post [-> [<- [Ha Hpre]]]]]].
  rewrite ListFacts.list_set_app.
  set (new := "-Dlog4j.configuration=file:" ++ sfg (Worker.basename lf)).
  set (jars := str_join ":" _).
  exists jh, lf, pre, arg, post, (app ["-cp"; jars; main_class] rargs).
  repeat split; auto.
  intros f2 d2.
  assert (Hn : str_in "-Dlog4j.configuration" new = true).
  { unfold new.
    change (str_in "-Dlog4j.configuration"
              ("-Dlog4j.configuration" ++ ("=file:" ++ sfg (Worker.basename lf))) = true).
    apply TextFacts.str_in_app. }
  rewrite (ListFacts.first_index_app _ _ _ _ Hpre Hn), ListFacts.list_set_app.
  reflexivity.
Qed.

End JarCommandFacts.

Module WorkerPathFacts.
Import Worker.

Lemma basename_from_slash s t cur :
  basename_from (s ++ String "/" t) cur = basename_from t "".
Proof.
  revert cur. induction s as [|c r IH]; intros cur; simpl; [reflexivity|].
  destruct (Ascii.eqb c "/"); apply IH.
Qed.

Lemma basename_from_no_slash t cur :
  all_chars no_slash t = true -> basename_from t cur = cur ++ t.
Proof.
  revert cur. induction t as [|c r IH]; intros cur H; simpl in *.
  - symmetry. apply TextFacts.append_empty_r.
  - apply andb_prop in H as [Hc Hr]. unfold no_slash in Hc.
    destruct (Ascii.eqb c "/"); [discriminate|].
    rewrite IH by exact Hr. apply string_app_assoc.
Qed.

Lemma basename_from_keeps s cur :
  all_chars no_slash cur = true -> all_chars no_slash (basename_from s cur) = true.
Proof.
  revert cur. induction s as [|c r IH]; intros cur H; simpl; [exact H|].
  destruct (Ascii.eqb c "/") eqn:Hc; apply IH; [reflexivity|].
  rewrite TextFacts.all_chars_app, H. simpl. unfold no_slash. now rewrite Hc.
Qed.

Lemma basename_no_slash p : all_chars no_slash (basename p) = true.
Proof. apply basename_from_keeps. reflexivity. Qed.

Lemma basename_dir_name dir name :
  all_chars no_slash name = true -> basename (dir ++ "/" ++ name) = name.
Proof.
  intros H. unfold basename. change ("/" ++ name) with (String "/" name).
  rewrite basename_from_slash. now apply basename_from_no_slash.
Qed.

(** Every event log is processed into [os.path.join(hdfs_base_dir,
    os.path.basename(file_path))]: the directory depends on the file name
    only, which has no ['/']. Two event logs with the same file name in
    different directories are given the same executor output directory. *)
Theorem same_file_name_same_output_dir base get_jar_command world t dir1 dir2 name
    logs1 d1 logs2 d2 :
  all_chars no_slash name = true ->
  run_jar_map_func base get_jar_command world t (dir1 ++ "/" ++ name) = inr (logs1, d1) ->
  run_jar_map_func base get_jar_command world t (dir2 ++ "/" ++ name) = inr (logs2, d2) ->
  d1 = path_join base name /\ d2 = d1.
Proof.
  intros Hn H1 H2. unfold run_jar_map_func in H1, H2.
  rewrite basename_dir_name in H1, H2 by exact Hn.
  destruct (submit_jar_cmd _ _ _); [discriminate|]. injection H1 as _ <-.
  destruct (submit_jar_cmd _ _ _); [discriminate|]. injection H2 as _ <-.
  auto.
Qed.

End WorkerPathFacts.

Module DispatcherFailFacts.
Import Dispatcher.

(** When the function mapped over the event logs raises on some item, the
    whole job fails: no manifest is written and the result is a Spark job
    failure wrapping the exception of an item on which the function
    raises. The tasks run concurrently, so which failing item's exception
    surfaces depends on timing; the statement fixes none of them. *)
Theorem failing_item_fails_job {A} (f : A -> exn + (list string * string)) items t x ex :
  In x items -> f x = inl ex ->
  exists y e, In y items /\ f y = inl e /\
    submit_map_job parallelize f items t = (None, inl (JobFailed e)).
Proof.
  intros Hin Hx.
  exact (JobFailureFacts.some_item_fails_job f items t x ex Hin Hx).
Qed.

End DispatcherFailFacts.

Module JobSetupFacts.
Import JobSetup.

(** [_set_env] changes only [PYTHONPATH], and only when SPARK_HOME is set
    and non-empty: it puts [<SPARK_HOME>/python] in front of the old value
    followed by [':']. Unset, the old value counts as empty, so the result
    ends with an empty entry. Each call prepends again: after two calls the
    entry is there twice. *)
Theorem set_env_prepends env spark_home :
  truthy (dict_get "SPARK_HOME" env) = Some spark_home ->
  let pp := Worker.path_join spark_home "python" in
  let old := match dict_get "PYTHONPATH" env with Some p => p | None => "" end in
  dict_get "PYTHONPATH" (set_env env) = Some (pp ++ ":" ++ old) /\
  dict_get "PYTHONPATH" (set_env (set_env env)) = Some (pp ++ ":" ++ pp ++ ":" ++ old) /\
  (forall k, k <> "PYTHONPATH" ->
     dict_get k (set_env env) = dict_get k env /\
     dict_get k (set_env (set_env env)) = dict_get k env).
Proof.
  intros Hs pp old.
  assert (Hk : forall k e, k <> "PYTHONPATH" -> dict_get k (set_env e) = dict_get k e).
  { intros k e Hne. unfold set_env. destruct (truthy (dict_get "SPARK_HOME" e)); [|reflexivity].
    now apply dict_get_set_neq. }
  assert (H1 : dict_get "PYTHONPATH" (set_env env) = Some (pp ++ ":" ++ old)).
  { unfold set_env. rewrite Hs. apply dict_get_set_eq. }
  split; [exact H1|]. split.
  - unfold set_env at 1. rewrite (Hk "SPARK_HOME") by discriminate. rewrite Hs.
    rewrite dict_get_set_eq, H1. reflexivity.
  - intros k Hne. split; [now apply Hk|]. rewrite !Hk by exact Hne. reflexivity.
Qed.

End JobSetupFacts.

Module SuffixFacts.

Lemma substring_all s : substring 0 (String.length s) s = s.
Proof. induction s as [|c s IH]; simpl; congruence. Qed.

Lemma substring_split s k :
  substring 0 k s ++ substring k (String.length s - k) s = s.
Proof.
  revert k. induction s as [|c r IH]; intros k.
  - destruct k as [|k]; reflexivity.
  - destruct k as [|k]; simpl.
    + f_equal. apply substring_all.
    + f_equal. apply IH.
Qed.

Lemma substring_after p t n : substring (String.length p) n (p ++ t) = substring 0 n t.
Proof. induction p as [|c p IH]; simpl; [reflexivity|]. exact IH. Qed.

Lemma ends_with_inv suf s : ends_with suf s = true -> exists p, s = p ++ suf.
Proof.
  unfold ends_with. intros H. apply andb_prop in H as [Hle Heq].
  apply Nat.leb_le in Hle. apply String.eqb_eq in Heq.
  exists (substring 0 (String.length s - String.length suf) s).
  pose proof (substring_split s (String.length s - String.length suf)) as Hs.
  replace (String.length s - (String.length s - String.length suf)) with (String.length suf)
    in Hs by lia.
  rewrite Heq in Hs. exact (eq_sym Hs).
Qed.

Lemma length_app (s t : string) : String.length (s ++ t) = String.length s + String.length t.
Proof. induction s as [|c s IH]; simpl; congruence. Qed.

Lemma last_char_app (s t : string) : t <> "" -> last_char (s ++ t) = last_char t.
Proof.
  intros Ht. induction s as [|c r IH]; [reflexivity|].
  change (String c r ++ t) with (String c (r ++ t)). rewrite <- IH.
  destruct (r ++ t) eqn:E; [|reflexivity].
  destruct r; simpl in E; [contradiction|discriminate].
Qed.

Lemma ends_with_app suf p t :
  String.length suf = String.length t -> ends_with suf (p ++ t) = String.eqb t suf.
Proof.
  intros Hl. unfold ends_with. rewrite length_app, Hl.
  replace (String.length p + String.length t - String.length t) with (String.length p) by lia.
  rewrite substring_after, substring_all.
  replace (String.length t <=? String.length p + String.length t)%nat with true
    by (symmetry; apply Nat.leb_le; lia).
  reflexivity.
Qed.

(** A name ending in [.log] ends neither in [.csv] nor in [.json]. *)
Lemma log_not_csv_json name :
  ends_with ".log" name = true ->
  ends_with ".csv" name = false /\ ends_with ".json" name = false.
Proof.
  intros H. destruct (ends_with_inv _ _ H) as [p ->].
  rewrite ends_with_app by reflexivity. split; [reflexivity|].
  destruct (ends_with ".json" (p ++ ".log")) eqn:Hj; [|reflexivity].
  destruct (ends_with_inv _ _ Hj) as [q Hq].
  apply (f_equal last_char) in Hq. rewrite !last_char_app in Hq by discriminate.
  discriminate.
Qed.

End SuffixFacts.


Module UrlFacts.
Import HdfsManager.

Lemma remove_unsafe_app a b : remove_unsafe (a ++ b) = remove_unsafe a ++ remove_unsafe b.
Proof. induction a as [|c a IH]; simpl; [reflexivity|]. destruct (is_unsafe c); simpl; congruence. Qed.

Lemma remove_unsafe_id s : all_chars (fun c => negb (is_unsafe c)) s = true -> remove_unsafe s = s.
Proof.
  induction s as [|c s IH]; simpl; [reflexivity|]. intros H.
  apply andb_prop in H as [Hc Hs]. destruct (is_unsafe c); [discriminate|]. now rewrite IH.
Qed.

Lemma break_at_skip p a b :
  all_chars (fun c => negb (p c)) a = true ->
  break_at p (a ++ b) = (a ++ fst (break_at p b), snd (break_at p b)).
Proof.
  induction a as [|c a IH]; simpl; intros H; [destruct (break_at p b); reflexivity|].
  apply andb_prop in H as [Hc Ha]. destruct (p c); [discriminate|]. now rewrite IH.
Qed.

Lemma break_at_none p a :
  all_chars (fun c => negb (p c)) a = true -> break_at p a = (a, "").
Proof.
  intros H. rewrite <- (TextFacts.append_empty_r a) at 1. rewrite break_at_skip by exact H.
  simpl. now rewrite TextFacts.append_empty_r.
Qed.

Lemma scheme_split y :
  snd (break_at (fun c => Ascii.eqb c ":") ("hdfs://" ++ y)) = String ":" ("//" ++ y).
Proof. reflexivity. Qed.

Lemma after_slashes y : substring 2 (String.length ("//" ++ y) - 2) ("//" ++ y) = y.
Proof. simpl. rewrite Nat.sub_0_r. apply SuffixFacts.substring_all. Qed.

Lemma host_ok_not_unsafe c : host_ok c = true -> negb (is_unsafe c) = true.
Proof. unfold host_ok. destruct (is_unsafe c); rewrite ?orb_true_r; auto. Qed.

Lemma host_no_bracket host b :
  all_chars host_ok host = true -> (b = "["%char \/ b = "]"%char) -> has_char b host = false.
Proof.
  intros H Hb. unfold has_char. rewrite (TextFacts.all_chars_impl host_ok); [reflexivity| |exact H].
  intros c. unfold host_ok.
  destruct Hb as [-> | ->]; [destruct (Ascii.eqb c "[") | destruct (Ascii.eqb c "]")];
    rewrite ?orb_true_r, ?orb_true_l; simpl; auto.
Qed.

Lemma delim_not_unsafe c : is_netloc_delim c = true -> is_unsafe c = false.
Proof.
  unfold is_netloc_delim. intros H.
  repeat (apply orb_prop in H as [H|H]); apply Ascii.eqb_eq in H; subst c; reflexivity.
Qed.

Lemma urlparse_hdfs host rest :
  all_chars host_ok host = true ->
  (rest = "" \/ exists c r, rest = String c r /\ is_netloc_delim c = true) ->
  urlparse_path ("hdfs://" ++ host ++ rest) =
  inr (fst (break_at (fun c => Ascii.eqb c "?")
              (fst (break_at (fun c => Ascii.eqb c "#") (remove_unsafe rest))))).
Proof.
  intros Hh Hr. unfold urlparse_path.
  rewrite remove_unsafe_app, remove_unsafe_app.
  rewrite (remove_unsafe_id host)
    by (revert Hh; apply TextFacts.all_chars_impl; exact host_ok_not_unsafe).
  change (remove_unsafe "hdfs://") with "hdfs://".
  rewrite scheme_split. rewrite TextFacts.prefix_app, after_slashes.
  assert (Hb : break_at is_netloc_delim (host ++ remove_unsafe rest) = (host, remove_unsafe rest)).
  { rewrite break_at_skip.
    - destruct Hr as [->|[c [r [-> Hc]]]]; simpl.
      + now rewrite TextFacts.append_empty_r.
      + rewrite (delim_not_unsafe c Hc). simpl. rewrite Hc.
        now rewrite TextFacts.append_empty_r.
    - revert Hh. apply TextFacts.all_chars_impl. unfold host_ok. intros c.
      destruct (is_netloc_delim c); auto. }
  rewrite Hb.
  rewrite (host_no_bracket host "[") by auto. rewrite (host_no_bracket host "]") by auto.
  reflexivity.
Qed.

(** [InputFsManager.extract_directory] on [hdfs://<host><path>], optionally
    followed by a query (from ['?']) or a fragment (from ['#']), returns
    [<path>]: the host, with its port, is dropped, and so is everything from
    the first ['?'] or ['#'] on, even when that character belongs to the
    directory's name. *)
Theorem extract_directory_hdfs_path host path sep query :
  all_chars host_ok host = true ->
  (path = "" \/ first_char path = Some "/"%char) ->
  all_chars path_ok path = true ->
  (sep = "" /\ query = "") \/ sep = "?" \/ sep = "#" ->
  extract_directory ("hdfs://" ++ host ++ path ++ sep ++ query) = inr path.
Proof.
  intros Hh Hp Hpath Hs. unfold extract_directory. rewrite TextFacts.prefix_app.
  rewrite urlparse_hdfs; [|exact Hh|].
  2:{ destruct Hp as [->|Hp].
      - destruct Hs as [[-> ->]|[-> | ->]]; [left; reflexivity|right|right];
          simpl; eexists _, _; split; reflexivity.
      - destruct path as [|c p]; [discriminate|]. injection Hp as ->.
        right. simpl. eexists _, _; split; reflexivity. }
  rewrite remove_unsafe_app, (remove_unsafe_id path)
    by (revert Hpath; apply TextFacts.all_chars_impl; unfold path_ok; intros c;
        destruct (is_unsafe c); rewrite ?orb_true_r; auto).
  rewrite break_at_skip
    by (revert Hpath; apply TextFacts.all_chars_impl; unfold path_ok; intros c;
        destruct (Ascii.eqb c "#"); rewrite ?orb_true_r; auto).
  assert (Hq : all_chars (fun c => negb (Ascii.eqb c "?")) path = true)
    by (revert Hpath; apply TextFacts.all_chars_impl; unfold path_ok; intros c;
        destruct (Ascii.eqb c "?"); auto).
  destruct Hs as [[-> ->]|[-> | ->]]; simpl fst.
  - simpl. rewrite TextFacts.append_empty_r. now rewrite break_at_none.
  - simpl remove_unsafe. simpl break_at.
    destruct (break_at _ (remove_unsafe query)) as [a b]. simpl fst.
    rewrite break_at_skip by exact Hq. simpl. now rewrite TextFacts.append_empty_r.
  - simpl. rewrite TextFacts.append_empty_r. now rewrite break_at_none.
Qed.

End UrlFacts.

Module CombinerScopeFacts.
Import Combiner CombinerScope.

Section Facts.
Context {L : Libs}.

Lemma keeps_ret {A} (P : state -> Prop) (a : A) : keeps P (ret a).
Proof. intros s H. exact H. Qed.

Lemma keeps_raise {A} (P : state -> Prop) e : keeps (A:=A) P (raise e).
Proof. intros s H. exact H. Qed.

Lemma keeps_bind {A B} (P : state -> Prop) (m : M A) (k : A -> M B) :
  keeps P m -> (forall a, keeps P (k a)) -> keeps P (bind m k).
Proof.
  intros Hm Hk s Hs. unfold bind. specialize (Hm s Hs).
  destruct (m s) as [a s'|e s']; simpl in *; [apply Hk; exact Hm|exact Hm].
Qed.

Lemma keeps_gets_bind {A B} (P : state -> Prop) (f : state -> A) (k : A -> M B) :
  (forall s, P s -> P (res_state (k (f s) s))) -> keeps P (bind (gets f) k).
Proof. intros H s Hs. unfold bind, gets. apply H, Hs. Qed.

Lemma keeps_modify (P : state -> Prop) g : (forall s, P s -> P (g s)) -> keeps P (modify g).
Proof. intros H s Hs. apply H, Hs. Qed.

Lemma keeps_mfor {A} (P : state -> Prop) (xs : list A) f :
  (forall x, In x xs -> keeps P (f x)) -> keeps P (mfor xs f).
Proof.
  induction xs as [|x r IH]; simpl; intros H; [apply keeps_ret|].
  apply keeps_bind; [apply H; now left|]. intros _. apply IH. intros y Hy. apply H. now right.
Qed.

Lemma keeps_list_dir (P : state -> Prop) n : keeps P (list_dir n).
Proof. destruct n; [apply keeps_raise|apply keeps_ret]. Qed.

Lemma keeps_matching (P : state -> Prop) inner suf (f : string * string -> M unit) :
  (forall nm cs x, inner = Dir nm cs -> In x (matching_files suf cs) -> keeps P (f x)) ->
  keeps P (files <- get_matching_files inner suf ;; mfor files f).
Proof.
  intros H. destruct inner as [nm c|nm cs]; [apply keeps_raise|].
  intros s Hs. simpl. apply (keeps_mfor P _ f); [|exact Hs].
  intros x Hx. exact (H nm cs x eq_refl Hx).
Qed.

Lemma matching_files_suffix suf cs n c :
  In (n, c) (matching_files suf cs) -> ends_with suf n = true.
Proof.
  induction cs as [|[nm c'|nm cs'] r IH]; simpl; [tauto| |exact IH].
  destruct (ends_with suf nm) eqn:He; [|exact IH].
  intros [H|H]; [injection H as -> ->; exact He|exact (IH H)].
Qed.

Lemma forallb_dict_set {V} (g : string * V -> bool) k v d :
  forallb g d = true -> g (k, v) = true -> forallb g (dict_set k v d) = true.
Proof.
  intros Hd Hk. induction d as [|[k' v'] r IH]; simpl in *; [now rewrite Hk|].
  apply andb_prop in Hd as [H1 H2].
  destruct (String.eqb k k'); simpl; rewrite ?Hk, ?H1, ?H2, ?IH; auto.
Qed.

Lemma forallb_dict_get {V} (g : string * V -> bool) k v d :
  forallb g d = true -> dict_get k d = Some v -> g (k, v) = true.
Proof.
  induction d as [|[k' v'] r IH]; simpl; [discriminate|].
  intros Hd Hget. apply andb_prop in Hd as [H1 H2].
  destruct (String.eqb_spec k k') as [->|]; [injection Hget as <-; exact H1|].
  exact (IH H2 Hget).
Qed.

Lemma forallb_keys_notin {V} (suf name : string) (d : list (string * V)) :
  forallb (fun kv => ends_with suf (fst kv)) d = true -> ends_with suf name = false ->
  ~ In name (map fst d).
Proof.
  intros Hd Hn Hin. apply in_map_iff in Hin as [[k v] [<- Hin]].
  rewrite forallb_forall in Hd. specialize (Hd _ Hin). simpl in Hd, Hn. congruence.
Qed.

(** *** The accumulators *)

Lemma wf_out_files o s : wf (set_out_files o s) <-> wf s.
Proof. reflexivity. Qed.

Lemma wf_props_copy p s : wf (set_props_copy p s) <-> wf s.
Proof. reflexivity. Qed.

Lemma csv_file_step_wf f :
  ends_with ".csv" (fst f) = true -> keeps wf (csv_file_step f).
Proof.
  destruct f as [name contents]. simpl. intros Hn.
  destruct (read_csv contents) as [csv|]; [|apply keeps_raise].
  apply keeps_gets_bind. intros s Hs. unfold wf, acc_wf in *.
  apply andb_prop in Hs as [Hd Hj].
  destruct (dict_get name (combined_dataframes s)); simpl;
    rewrite Hj, forallb_dict_set; auto.
Qed.

Lemma json_file_step_wf f :
  ends_with ".json" (fst f) = true -> keeps wf (json_file_step f).
Proof.
  destruct f as [name contents]. simpl. intros Hn.
  destruct (json_load contents) as [data|]; [|apply keeps_raise].
  destruct (is_list_of_dicts data) as [records|] eqn:Hr; [|apply keeps_raise].
  assert (Hrec : forallb is_dict records = true).
  { destruct data; try discriminate. simpl in Hr.
    destruct (forallb is_dict items) eqn:Hi; [injection Hr as <-; exact Hi|discriminate]. }
  apply keeps_gets_bind. intros s Hs. unfold wf, acc_wf in *.
  apply andb_prop in Hs as [Hd Hj].
  destruct (dict_get name (combined_json_data s)) as [old|] eqn:Hold; simpl;
    rewrite Hd, forallb_dict_set; auto; simpl; rewrite Hn; simpl.
  - pose proof (forallb_dict_get _ _ _ _ Hj Hold) as Ho. simpl in Ho.
    apply andb_prop in Ho as [_ Ho]. rewrite forallb_app, Ho. exact Hrec.
  - exact Hrec.
Qed.

Lemma item_processors_wf inner :
  keeps wf (csv_process inner ;; json_process inner ;; log_process inner ;;
            raw_metrics_process inner).
Proof.
  apply keeps_bind.
  { apply keeps_matching. intros nm cs x _ Hx. apply csv_file_step_wf.
    destruct x. exact (matching_files_suffix _ _ _ _ Hx). }
  intros _. apply keeps_bind.
  { apply keeps_matching. intros nm cs x _ Hx. apply json_file_step_wf.
    destruct x. exact (matching_files_suffix _ _ _ _ Hx). }
  intros _. apply keeps_bind.
  { apply keeps_matching. intros nm cs [n c] _ _. simpl.
    apply keeps_gets_bind. intros s Hs. exact Hs. }
  intros _. unfold raw_metrics_process.
  destruct (child "raw_metrics" inner) as [[n c|n cs]|];
    [apply keeps_raise| |apply keeps_raise].
  apply keeps_gets_bind. intros s Hs. exact Hs.
Qed.

Lemma process_item_wf d : keeps wf (process_item d).
Proof.
  unfold process_item. apply keeps_bind; [apply keeps_list_dir|].
  intros [|inner rest]; [apply keeps_ret|].
  apply keeps_gets_bind. intros s0 Hs0.
  destruct (combined_dataframes s0).
  - apply keeps_bind; [|intros _; apply item_processors_wf|exact Hs0].
    unfold runtime_properties_process.
    destruct (child "runtime.properties" inner) as [[n c|n cs]|]; intros s Hs; exact Hs.
  - apply keeps_bind; [apply keeps_ret|intros _; apply item_processors_wf|exact Hs0].
Qed.

Lemma run_combiner_wf root out pc : wf (res_state (run_combiner root out pc)).
Proof.
  unfold run_combiner, combine_results.
  apply keeps_bind; [apply keeps_list_dir| |reflexivity].
  intros ds. apply keeps_bind; [apply keeps_mfor; intros; apply process_item_wf|].
  intros _. apply keeps_bind; [intros s Hs; exact Hs|]. intros _ s Hs. exact Hs.
Qed.

(** A combine, whether it completes or raises, leaves tabular
    accumulators only under names ending in [.csv] and structured ones only
    under names ending in [.json], and every structured record it keeps is
    a JSON object. *)
Theorem combine_accumulators_well_formed root out pc :
  acc_wf (res_state (run_combiner root out pc)) = true.
Proof. exact (run_combiner_wf root out pc). Qed.

(** *** The output files *)

Lemma process_item_dir_eq n inner rest :
  process_item (Dir n (inner :: rest)) =
  (d <- gets combined_dataframes ;;
   (match d with [] => runtime_properties_process inner | _ :: _ => ret tt end) ;;
   csv_process inner ;; json_process inner ;; log_process inner ;;
   raw_metrics_process inner).
Proof. reflexivity. Qed.

Lemma copy_into_notin fs o k :
  ~ In k (map fst fs) -> dict_get k (copy_into fs o) = dict_get k o.
Proof.
  unfold copy_into. revert o. induction fs as [|[k' v] r IH]; intros o Hk; simpl in *; [reflexivity|].
  rewrite IH by tauto. apply dict_get_set_neq. intros ->. tauto.
Qed.

Lemma item_processors_out name v inner :
  ends_with ".log" name = false ->
  (forall rn rcs, child "raw_metrics" inner = Some (Dir rn rcs) ->
                  ~ In name (map fst (children_files rcs))) ->
  keeps (out_at name v)
    (csv_process inner ;; json_process inner ;; log_process inner ;; raw_metrics_process inner).
Proof.
  intros Hlog Hraw. apply keeps_bind.
  { apply keeps_matching. intros nm cs [n c] _ _. simpl.
    destruct (read_csv c); [|apply keeps_raise].
    apply keeps_gets_bind. intros s Hs. destruct (dict_get n _); exact Hs. }
  intros _. apply keeps_bind.
  { apply keeps_matching. intros nm cs [n c] _ _. simpl.
    destruct (json_load c); [|apply keeps_raise].
    destruct (is_list_of_dicts _); [|apply keeps_raise].
    apply keeps_gets_bind. intros s Hs. destruct (dict_get n _); exact Hs. }
  intros _. apply keeps_bind.
  { apply keeps_matching. intros nm cs [n c] _ Hx. simpl.
    apply keeps_gets_bind. intros s Hs. unfold out_at in *. simpl.
    rewrite dict_get_set_neq; [exact Hs|].
    intros ->. pose proof (matching_files_suffix _ _ _ _ Hx). congruence. }
  intros _. unfold raw_metrics_process.
  destruct (child "raw_metrics" inner) as [[n c|n cs]|] eqn:Hc;
    [apply keeps_raise| |apply keeps_raise].
  apply keeps_gets_bind. intros s Hs. unfold out_at in *. simpl.
  rewrite copy_into_notin; [exact Hs|]. exact (Hraw n cs eq_refl).
Qed.

Lemma process_item_out name v d :
  ends_with ".log" name = false -> ~ In name (item_raw_names d) ->
  keeps (out_at name v) (process_item d).
Proof.
  intros Hlog Hraw. destruct d as [n c|n [|inner rest]]; [apply keeps_raise|apply keeps_ret|].
  rewrite process_item_dir_eq. apply keeps_gets_bind. intros s0 Hs0.
  assert (Ht : keeps (out_at name v)
                 (csv_process inner ;; json_process inner ;; log_process inner ;;
                  raw_metrics_process inner)).
  { apply item_processors_out; [exact Hlog|]. intros rn rcs Hc.
    simpl in Hraw. rewrite Hc in Hraw. exact Hraw. }
  destruct (combined_dataframes s0).
  - apply keeps_bind; [|intros _; exact Ht|exact Hs0].
    unfold runtime_properties_process.
    destruct (child "runtime.properties" inner) as [[n' c|n' cs]|]; intros s Hs; exact Hs.
  - apply keeps_bind; [apply keeps_ret|intros _; exact Ht|exact Hs0].
Qed.

Lemma forallb_fst {V} (p : string -> bool) (q : V -> bool) d :
  forallb (fun kv => p (fst kv) && q (snd kv)) d = true -> forallb (fun kv => p (fst kv)) d = true.
Proof.
  rewrite !forallb_forall. intros H x Hx. specialize (H x Hx).
  apply andb_prop in H as [H _]. exact H.
Qed.

(** A combine never changes a local output file other than the logs it
    appends to ([*.log]), the files copied from the items' [raw_metrics]
    directories, and the merged tabular ([*.csv]) and structured
    ([*.json]) files it writes when it completes. This holds whether the
    combine completes or raises. (The copy of [runtime.properties] is the
    separate field [props_copy], not one of these files.) *)
Theorem combine_leaves_other_files root out pc name :
  ends_with ".log" name = false -> ends_with ".csv" name = false ->
  ends_with ".json" name = false -> ~ In name (raw_names root) ->
  dict_get name (out_files (res_state (run_combiner root out pc))) = dict_get name out.
Proof.
  intros Hlog Hcsv Hjson Hraw. destruct root as [f c|r ds]; [reflexivity|].
  unfold run_combiner. rewrite CombinerFacts.combine_results_eq.
  assert (Hk : keeps (out_at name (dict_get name out)) (mfor ds process_item)).
  { apply keeps_mfor. intros d Hd. apply process_item_out; [exact Hlog|].
    intros Hin. apply Hraw. simpl. apply in_flat_map. eauto. }
  assert (Hw : keeps wf (mfor ds process_item))
    by (apply keeps_mfor; intros; apply process_item_wf).
  specialize (Hk (new_combiner out pc) eq_refl).
  specialize (Hw (new_combiner out pc) eq_refl).
  destruct (mfor ds process_item (new_combiner out pc)) as [u m|e m]; simpl in *; [|exact Hk].
  unfold wf, acc_wf in Hw. apply andb_prop in Hw as [Hd Hj].
  unfold write_json_files, write_csv_files.
  rewrite fold_set_notin by (exact (forallb_keys_notin _ _ _ (forallb_fst _ _ _ Hj) Hjson)).
  rewrite fold_set_notin by (exact (forallb_keys_notin _ _ _ Hd Hcsv)).
  exact Hk.
Qed.

End Facts.
End CombinerScopeFacts.

Module CombinerLogFacts.
Import Combiner CombinerScope CombinerScopeFacts.

Section Facts.
Context {L : Libs}.

Lemma fold_append_app (xs ys : list string) :
  fold_right String.append "" (app xs ys) =
  fold_right String.append "" xs ++ fold_right String.append "" ys.
Proof.
  induction xs as [|x xs IH]; simpl; [reflexivity|]. rewrite IH. symmetry. apply string_app_assoc.
Qed.

Lemma append_all_app o xs ys : append_all (append_all o xs) ys = append_all o (app xs ys).
Proof.
  destruct xs as [|x xs]; [reflexivity|]. destruct ys as [|y ys].
  - simpl. now rewrite app_nil_r.
  - change (app (x :: xs) (y :: ys)) with (x :: app xs (y :: ys)).
    unfold append_all. f_equal.
    change (fold_right String.append "" (x :: app xs (y :: ys)))
      with (fold_right String.append "" (app (x :: xs) (y :: ys))).
    rewrite fold_append_app. apply string_app_assoc.
Qed.

Lemma bind_ok {A B} (m : M A) (k : A -> M B) s b s' :
  bind m k s = Ok b s' -> exists a s1, m s = Ok a s1 /\ k a s1 = Ok b s'.
Proof. unfold bind. destruct (m s) as [a s1|e s1]; [eauto|discriminate]. Qed.

Lemma keeps_ok {A} (P : state -> Prop) (m : M A) s a s1 :
  keeps P m -> P s -> m s = Ok a s1 -> P s1.
Proof. intros Hk Hs Hm. specialize (Hk s Hs). now rewrite Hm in Hk. Qed.

Lemma log_steps fs s :
  exists s', mfor fs log_file_step s = Ok tt s' /\
    combined_dataframes s' = combined_dataframes s /\
    combined_json_data s' = combined_json_data s /\ props_copy s' = props_copy s /\
    forall n, dict_get n (out_files s') =
              append_all (dict_get n (out_files s))
                         (map snd (filter (fun f => String.eqb (fst f) n) fs)).
Proof.
  revert s. induction fs as [|[k c] r IH]; intros s.
  - exists s. repeat split; intros; reflexivity.
  - set (s1 := set_out_files (dict_set k (match dict_get k (out_files s) with
                                           | Some o => o | None => "" end ++ c)
                                 (out_files s)) s).
    destruct (IH s1) as [s' [Hr [Hd [Hj [Hp Ho]]]]].
    exists s'. split; [exact Hr|]. split; [exact Hd|]. split; [exact Hj|]. split; [exact Hp|].
    intros n. rewrite Ho. simpl (fst (k, c)).
    destruct (String.eqb_spec k n) as [<-|Hne].
    + unfold s1. simpl. rewrite String.eqb_refl, dict_get_set_eq. simpl map.
      match goal with |- context [c :: ?l] => change (c :: l) with (app [c] l) end.
      rewrite <- append_all_app. f_equal. simpl. now rewrite TextFacts.append_empty_r.
    + unfold s1. simpl. apply String.eqb_neq in Hne as Hne'. rewrite Hne'.
      rewrite dict_get_set_neq by congruence. reflexivity.
Qed.

Lemma csv_process_out name v inner : keeps (out_at name v) (csv_process inner).
Proof.
  apply keeps_matching. intros nm cs [n c] _ _. simpl.
  destruct (read_csv c); [|apply keeps_raise].
  apply keeps_gets_bind. intros s Hs. destruct (dict_get n _); exact Hs.
Qed.

Lemma json_process_out name v inner : keeps (out_at name v) (json_process inner).
Proof.
  apply keeps_matching. intros nm cs [n c] _ _. simpl.
  destruct (json_load c); [|apply keeps_raise].
  destruct (is_list_of_dicts _); [|apply keeps_raise].
  apply keeps_gets_bind. intros s Hs. destruct (dict_get n _); exact Hs.
Qed.

Lemma raw_metrics_out name v inner :
  (forall rn rcs, child "raw_metrics" inner = Some (Dir rn rcs) ->
                  ~ In name (map fst (children_files rcs))) ->
  keeps (out_at name v) (raw_metrics_process inner).
Proof.
  intros Hraw. unfold raw_metrics_process.
  destruct (child "raw_metrics" inner) as [[n c|n cs]|] eqn:Hc;
    [apply keeps_raise| |apply keeps_raise].
  apply keeps_gets_bind. intros s Hs. unfold out_at in *. simpl.
  rewrite copy_into_notin; [exact Hs|]. exact (Hraw n cs eq_refl).
Qed.

Lemma process_item_logs name d s s' :
  ~ In name (item_raw_names d) -> process_item d s = Ok tt s' ->
  dict_get name (out_files s') = append_all (dict_get name (out_files s)) (item_logs name d).
Proof.
  intros Hraw H. destruct d as [n c|n [|inner rest]]; [discriminate|injection H as <-; reflexivity|].
  assert (Hraw' : forall rn rcs, child "raw_metrics" inner = Some (Dir rn rcs) ->
                                 ~ In name (map fst (children_files rcs))).
  { intros rn rcs Hc. simpl in Hraw. rewrite Hc in Hraw. exact Hraw. }
  rewrite process_item_dir_eq in H. unfold bind at 1, gets in H.
  apply bind_ok in H as [a1 [s1 [H1 H]]].
  assert (E1 : out_at name (dict_get name (out_files s)) s1).
  { destruct (combined_dataframes s).
    - unfold runtime_properties_process in H1.
      destruct (child "runtime.properties" inner) as [[n' c|n' cs]|];
        try discriminate. injection H1 as _ <-. reflexivity.
    - injection H1 as _ <-. reflexivity. }
  apply bind_ok in H as [a2 [s2 [H2 H]]].
  pose proof (keeps_ok _ _ _ _ _ (csv_process_out name _ inner) E1 H2) as E2.
  apply bind_ok in H as [a3 [s3 [H3 H]]].
  pose proof (keeps_ok _ _ _ _ _ (json_process_out name _ inner) E2 H3) as E3.
  apply bind_ok in H as [a4 [s4 [H4 H]]].
  pose proof (keeps_ok _ _ _ _ _ (raw_metrics_out name (dict_get name (out_files s4)) inner Hraw')
                eq_refl H) as E5.
  unfold out_at in *. rewrite E5.
  destruct inner as [n' c|n' cs]; [discriminate|].
  change (mfor (matching_files ".log" cs) log_file_step s3 = Ok a4 s4) in H4.
  destruct (log_steps (matching_files ".log" cs) s3) as [s4' [Hr [_ [_ [_ Ho]]]]].
  rewrite Hr in H4. injection H4 as _ <-.
  rewrite Ho, E3. reflexivity.
Qed.

Lemma mfor_logs name ds s s' :
  (forall d, In d ds -> ~ In name (item_raw_names d)) ->
  mfor ds process_item s = Ok tt s' ->
  dict_get name (out_files s') =
  append_all (dict_get name (out_files s)) (flat_map (item_logs name) ds).
Proof.
  revert s. induction ds as [|d ds IH]; intros s Hraw H.
  - injection H as <-. reflexivity.
  - simpl in H. apply bind_ok in H as [[] [s1 [H1 H]]].
    rewrite (IH s1) by (auto || (intros; apply Hraw; now right)).
    rewrite (process_item_logs name d s s1) by (auto || (apply Hraw; now left)).
    simpl. apply append_all_app.
Qed.

(** When a combine completes, each log file [name] of the local output is
    its earlier content followed by the contents of the items' log files of
    that name, in item order (the file is created if absent). The earlier
    content is kept, so a second combine of the same items appends the logs
    a second time. Only a copy from [raw_metrics] of that very name could
    interfere, and none is assumed. *)
Theorem combine_appends_logs r ds out pc s name :
  run_combiner (Dir r ds) out pc = Ok tt s -> ends_with ".log" name = true ->
  ~ In name (raw_names (Dir r ds)) ->
  dict_get name (out_files s) = append_all (dict_get name out) (flat_map (item_logs name) ds).
Proof.
  intros H Hlog Hraw. unfold run_combiner in H. rewrite CombinerFacts.combine_results_eq in H.
  destruct (mfor ds process_item (new_combiner out pc)) as [u m|e m] eqn:Hm; [|discriminate].
  injection H as <-. destruct u.
  assert (Hw : wf m).
  { apply (keeps_ok wf (mfor ds process_item) (new_combiner out pc) tt m); [|reflexivity|exact Hm].
    apply keeps_mfor. intros. apply process_item_wf. }
  destruct (SuffixFacts.log_not_csv_json name Hlog) as [Hcsv Hjson].
  unfold wf, acc_wf in Hw. apply andb_prop in Hw as [Hd Hj].
  simpl. unfold write_json_files, write_csv_files.
  rewrite fold_set_notin by (exact (forallb_keys_notin _ _ _ (forallb_fst _ _ _ Hj) Hjson)).
  rewrite fold_set_notin by (exact (forallb_keys_notin _ _ _ Hd Hcsv)).
  apply (mfor_logs name ds (new_combiner out pc) m); [|exact Hm].
  intros d Hd' Hin. apply Hraw. simpl. apply in_flat_map. eauto.
Qed.

End Facts.
End CombinerLogFacts.

Module CombinerLayoutFacts.
Import Combiner CombinerScope CombinerScopeFacts CombinerLogFacts.

Section Facts.
Context {L : Libs}.

Lemma mfor_ok_each {A} (f : A -> M unit) xs s s' :
  mfor xs f s = Ok tt s' -> forall x, In x xs -> exists s1 s2, f x s1 = Ok tt s2.
Proof.
  revert s. induction xs as [|y r IH]; intros s H x Hx; [destruct Hx|].
  simpl in H. apply bind_ok in H as [[] [s1 [H1 H]]].
  destruct Hx as [<-|Hx]; [eauto|exact (IH s1 H x Hx)].
Qed.

Lemma mfor_ok_app {A} (f : A -> M unit) pre x post s s' :
  mfor (app pre (x :: post)) f s = Ok tt s' ->
  exists s1 s2, mfor pre f s = Ok tt s1 /\ f x s1 = Ok tt s2.
Proof.
  revert s. induction pre as [|y r IH]; intros s H; simpl in H.
  - apply bind_ok in H as [[] [s1 [H1 _]]]. exists s, s1. split; [reflexivity|exact H1].
  - apply bind_ok in H as [[] [s1 [H1 H]]]. destruct (IH s1 H) as [s2 [s3 [H2 H3]]].
    exists s2, s3. split; [|exact H3]. simpl. unfold bind. now rewrite H1.
Qed.

Lemma mfor_empty_items pre s s1 :
  (forall d, In d pre -> exists n, d = Dir n []) ->
  mfor pre process_item s = Ok tt s1 -> s1 = s.
Proof.
  revert s. induction pre as [|d r IH]; intros s Hpre H; simpl in H.
  - now injection H as <-.
  - destruct (Hpre d (or_introl eq_refl)) as [n ->].
    unfold bind at 1 in H. simpl in H. apply (IH s); [|exact H].
    intros d' Hd'. apply Hpre. now right.
Qed.

Lemma process_item_ok_shape d s s' :
  process_item d s = Ok tt s' ->
  (exists n, d = Dir n []) \/
  exists n inm ics rest rn rcs,
    d = Dir n (Dir inm ics :: rest) /\ child "raw_metrics" (Dir inm ics) = Some (Dir rn rcs).
Proof.
  intros H. destruct d as [n c|n [|inner rest]]; [discriminate|left; eauto|right].
  rewrite process_item_dir_eq in H. unfold bind at 1, gets in H.
  apply bind_ok in H as [a1 [s1 [H1 H]]].
  apply bind_ok in H as [a2 [s2 [H2 H]]].
  destruct inner as [inm c|inm ics]; [discriminate|].
  apply bind_ok in H as [a3 [s3 [H3 H]]].
  apply bind_ok in H as [a4 [s4 [H4 H]]].
  unfold raw_metrics_process in H.
  destruct (child "raw_metrics" (Dir inm ics)) as [[rn c|rn rcs]|] eqn:Hc; try discriminate.
  exists n, inm, ics, rest, rn, rcs. auto.
Qed.

(** A combine completes only over a well-formed layout: every entry of
    the executor output directory is a directory, and every non-empty one
    has a directory as its first entry, holding a [raw_metrics] directory.
    The first non-empty item, before which nothing has been accumulated,
    must also hold a [runtime.properties] file. Any other layout makes the
    combine raise. *)
Theorem combine_requires_item_layout r ds out pc s :
  run_combiner (Dir r ds) out pc = Ok tt s ->
  (forall d, In d ds ->
     (exists n, d = Dir n []) \/
     exists n inm ics rest rn rcs,
       d = Dir n (Dir inm ics :: rest) /\ child "raw_metrics" (Dir inm ics) = Some (Dir rn rcs)) /\
  (forall pre n inner rest post,
     ds = app pre (Dir n (inner :: rest) :: post) ->
     (forall d, In d pre -> exists n', d = Dir n' []) ->
     exists pn c, child "runtime.properties" inner = Some (File pn c)).
Proof.
  intros H. unfold run_combiner in H. rewrite CombinerFacts.combine_results_eq in H.
  destruct (mfor ds process_item (new_combiner out pc)) as [[] m|e m] eqn:Hm; [|discriminate].
  split.
  - intros d Hd. destruct (mfor_ok_each _ _ _ _ Hm d Hd) as [s1 [s2 H1]].
    exact (process_item_ok_shape _ _ _ H1).
  - intros pre n inner rest post -> Hpre.
    destruct (mfor_ok_app _ _ _ _ _ _ Hm) as [s1 [s2 [H1 H2]]].
    rewrite (mfor_empty_items pre _ _ Hpre H1) in H2.
    rewrite process_item_dir_eq in H2. unfold bind at 1, gets in H2.
    apply bind_ok in H2 as [a1 [s3 [H3 _]]]. simpl in H3.
    unfold runtime_properties_process in H3.
    destruct (child "runtime.properties" inner) as [[pn c|pn cs]|]; try discriminate. eauto.
Qed.

End Facts.
End CombinerLayoutFacts.

Module ExecutorPathFacts.
Import Utilities.

Lemma last_char_all p s c : all_chars p s = true -> last_char s = Some c -> p c = true.
Proof.
  induction s as [|c0 r IH]; simpl; [discriminate|].
  intros H. apply andb_prop in H as [H0 Hr].
  destruct r as [|c1 r']; [intros E; injection E as <-; exact H0|].
  intros E. exact (IH Hr E).
Qed.

Lemma ends_with_slash_false s c : last_char s = Some c -> c <> "/"%char -> ends_with "/" s = false.
Proof.
  intros Hl Hc. destruct (ends_with "/" s) eqn:E; [|reflexivity].
  destruct (SuffixFacts.ends_with_inv _ _ E) as [p ->].
  rewrite SuffixFacts.last_char_app in Hl by discriminate. simpl in Hl.
  injection Hl as <-. contradiction.
Qed.

Lemma prefix_slash_no_slash c r : no_slash c = true -> prefix "/" (String c r) = false.
Proof.
  unfold no_slash. intros H.
  change (prefix "/" (String c r)) with (if ascii_dec "/" c then prefix "" r else false).
  destruct (ascii_dec "/" c) as [<-|]; [discriminate|reflexivity].
Qed.

Lemma os_path_join_cons a b ps :
  os_path_join a (b :: ps) =
  os_path_join (if prefix "/" b then b
                else if String.eqb a "" || ends_with "/" a then a ++ b else a ++ "/" ++ b) ps.
Proof. reflexivity. Qed.

Lemma os_path_join_nil a : os_path_join a [] = a.
Proof. reflexivity. Qed.

Lemma last_char_nonempty c r : last_char (String c r) <> None.
Proof. revert c. induction r as [|a r IH]; intros c; [discriminate|exact (IH a)]. Qed.

(** [Utilities.get_executor_output_path] on a name without ['/'] (an
    [os.path.basename], say) is [<cache dir>/<name>/executor_output], and
    [<cache dir>/executor_output] for the empty name. An absolute name
    replaces the cache directory: [<name>/executor_output]. *)
Theorem executor_output_path_layout name :
  all_chars no_slash name = true ->
  get_executor_output_path name =
  DISTRIBUTED_TOOLS_CACHE_DIR ++ "/" ++
    (if String.eqb name "" then "" else name ++ "/") ++ EXECUTOR_OUTPUT_DIR_NAME /\
  (forall abs, first_char abs = Some "/"%char -> ends_with "/" abs = false ->
   get_executor_output_path abs = abs ++ "/" ++ EXECUTOR_OUTPUT_DIR_NAME).
Proof.
  intros Hn.
  assert (Hc1 : String.eqb DISTRIBUTED_TOOLS_CACHE_DIR "" = false) by reflexivity.
  assert (Hc2 : ends_with "/" DISTRIBUTED_TOOLS_CACHE_DIR = false) by reflexivity.
  assert (He : prefix "/" EXECUTOR_OUTPUT_DIR_NAME = false) by reflexivity.
  unfold get_executor_output_path. rewrite !os_path_join_cons, He. split.
  - destruct name as [|c r].
    + reflexivity.
    + simpl in Hn. apply andb_prop in Hn as [Hc Hr].
      rewrite prefix_slash_no_slash by exact Hc. rewrite Hc1, Hc2. cbn [orb].
      destruct (last_char (String c r)) as [d|] eqn:Ed;
        [|exfalso; exact (last_char_nonempty c r Ed)].
      assert (Hnd : no_slash d = true).
      { apply (last_char_all no_slash (String c r)); [|exact Ed]. simpl. now rewrite Hc, Hr. }
      assert (Hl : last_char (DISTRIBUTED_TOOLS_CACHE_DIR ++ "/" ++ String c r) = Some d).
      { rewrite !SuffixFacts.last_char_app by discriminate. exact Ed. }
      rewrite (ends_with_slash_false _ d Hl) by (intros E; subst d; discriminate Hnd).
      replace (String.eqb (DISTRIBUTED_TOOLS_CACHE_DIR ++ "/" ++ String c r) "") with false
        by reflexivity.
      cbn [orb]. rewrite os_path_join_nil.
      replace (String.eqb (String c r) "") with false by reflexivity.
      rewrite !string_app_assoc. reflexivity.
  - intros abs Hf Hae. destruct abs as [|c r]; [discriminate|]. injection Hf as ->. rewrite !os_path_join_cons.
    assert (Hp : prefix "/" (String "/" r) = true) by (destruct r; reflexivity). rewrite Hp, He.
    replace (String.eqb (String "/" r) "") with false by reflexivity.
    rewrite Hae. cbn [orb]. apply os_path_join_nil.
Qed.

End ExecutorPathFacts.

(** ** The properties above on sample inputs *)

Module ExtraInstances.
Import Combiner CombinerScope Worker Dispatcher ExtraSamples.

Lemma namenode_address_stripped_witness :
  snd (HdfsManager.get_hdfs_nn_addr (Some "/opt/hadoop") getconf_world) = inr "hdfs://nn:8020" /\
  exists h out err lead trail,
    truthy (Some "/opt/hadoop") = Some h /\
    getconf_world [h ++ "/bin/hdfs"; "getconf"; "-confKey"; "fs.defaultFS"] = Completed 0 out err /\
    out = lead ++ "hdfs://nn:8020" ++ trail /\
    all_chars is_space lead = true /\ all_chars is_space trail = true /\
    (forall c, first_char "hdfs://nn:8020" = Some c -> is_space c = false) /\
    (forall c, last_char "hdfs://nn:8020" = Some c -> is_space c = false).
Proof.
  assert (H : snd (HdfsManager.get_hdfs_nn_addr (Some "/opt/hadoop") getconf_world) =
              inr "hdfs://nn:8020") by reflexivity.
  split; [exact H|].
  exact (HdfsManagerFacts.namenode_address_stripped _ _ _ H).
Defined.

Lemma get_jar_command_log4j_witness :
  exists jvm' cmd,
  Main.get_jar_command spark_files_get (Some "/opt/spark") (Some "/opt/jdk")
    ["/deps/rapids-4-spark-tools.jar"] (Some "/conf/log4j.properties") "com.nvidia.Main" []
    ["-Xmx4g"; "-Dlog4j.configuration=file:log4j.properties"]
    "hdfs://nn:8020/eventlogs/app-1" "hdfs://nn:8020/out/app-1" = inr (jvm', cmd) /\
  exists jh lf pre arg post prefix,
    Some "/opt/jdk" = Some jh /\
    Some "/conf/log4j.properties" = Some lf /\
    ["-Xmx4g"; "-Dlog4j.configuration=file:log4j.properties"] = app pre (arg :: post) /\
    str_in "-Dlog4j.configuration" arg = true /\
    forallb (fun a => negb (str_in "-Dlog4j.configuration" a)) pre = true /\
    jvm' = app pre (("-Dlog4j.configuration=file:" ++
                     spark_files_get (Worker.basename lf)) :: post) /\
    cmd = app ((jh ++ "/bin/java") :: jvm')
              (app prefix ["--output-directory"; "hdfs://nn:8020/out/app-1";
                           "hdfs://nn:8020/eventlogs/app-1"]) /\
    forall file_path2 out_dir2,
      Main.get_jar_command spark_files_get (Some "/opt/spark") (Some "/opt/jdk")
        ["/deps/rapids-4-spark-tools.jar"] (Some "/conf/log4j.properties") "com.nvidia.Main" []
        jvm' file_path2 out_dir2 =
      inr (jvm', app ((jh ++ "/bin/java") :: jvm')
                     (app prefix ["--output-directory"; out_dir2; file_path2])).
Proof.
  do 2 eexists. split; [reflexivity|].
  apply JarCommandFacts.get_jar_command_log4j. reflexivity.
Defined.

Lemma same_file_name_same_output_dir_witness :
  exists logs1 d1 logs2 d2,
    run_jar_map_func "hdfs://nn:8020/out" (fun f d => ["java"; d; f])
      (fun _ => Completed 0 "done" "") "0:00:01" ("hdfs://nn:8020/logs/a" ++ "/" ++ "app-1") =
      inr (logs1, d1) /\
    run_jar_map_func "hdfs://nn:8020/out" (fun f d => ["java"; d; f])
      (fun _ => Completed 0 "done" "") "0:00:01" ("hdfs://nn:8020/logs/b" ++ "/" ++ "app-1") =
      inr (logs2, d2) /\
    d1 = path_join "hdfs://nn:8020/out" "app-1" /\ d2 = d1.
Proof.
  do 4 eexists. split; [reflexivity|]. split; [reflexivity|].
  eapply (WorkerPathFacts.same_file_name_same_output_dir "hdfs://nn:8020/out"
           (fun f d => ["java"; d; f]) (fun _ => Completed 0 "done" "") "0:00:01"
           "hdfs://nn:8020/logs/a" "hdfs://nn:8020/logs/b" "app-1");
    reflexivity.
Defined.

Lemma failing_item_fails_job_witness :
  In "hdfs://nn:8020/eventlogs/app-2"
     ["hdfs://nn:8020/eventlogs/app-1"; "hdfs://nn:8020/eventlogs/app-2";
      "hdfs://nn:8020/eventlogs/app-3"] /\
  flaky_map_func "hdfs://nn:8020/eventlogs/app-2" =
    inl (OSError "No such file or directory: java") /\
  exists y e,
    In y ["hdfs://nn:8020/eventlogs/app-1"; "hdfs://nn:8020/eventlogs/app-2";
          "hdfs://nn:8020/eventlogs/app-3"] /\
    flaky_map_func y = inl e /\
    submit_map_job parallelize flaky_map_func
      ["hdfs://nn:8020/eventlogs/app-1"; "hdfs://nn:8020/eventlogs/app-2";
       "hdfs://nn:8020/eventlogs/app-3"] "0:00:05" = (None, inl (JobFailed e)).
Proof.
  assert (H1 : In "hdfs://nn:8020/eventlogs/app-2"
                  ["hdfs://nn:8020/eventlogs/app-1"; "hdfs://nn:8020/eventlogs/app-2";
                   "hdfs://nn:8020/eventlogs/app-3"]) by (right; left; reflexivity).
  assert (H2 : flaky_map_func "hdfs://nn:8020/eventlogs/app-2" =
               inl (OSError "No such file or directory: java")) by reflexivity.
  split; [exact H1|]. split; [exact H2|].
  exact (DispatcherFailFacts.failing_item_fails_job flaky_map_func _ "0:00:05" _ _ H1 H2).
Defined.

Lemma set_env_prepends_witness :
  truthy (dict_get "SPARK_HOME" [("SPARK_HOME", "/opt/spark"); ("PYTHONPATH", "/usr/lib/py")]) =
    Some "/opt/spark" /\
  let env := [("SPARK_HOME", "/opt/spark"); ("PYTHONPATH", "/usr/lib/py")] in
  let pp := Worker.path_join "/opt/spark" "python" in
  let old := match dict_get "PYTHONPATH" env with Some p => p | None => "" end in
  dict_get "PYTHONPATH" (JobSetup.set_env env) = Some (pp ++ ":" ++ old) /\
  dict_get "PYTHONPATH" (JobSetup.set_env (JobSetup.set_env env)) =
    Some (pp ++ ":" ++ pp ++ ":" ++ old) /\
  (forall k, k <> "PYTHONPATH" ->
     dict_get k (JobSetup.set_env env) = dict_get k env /\
     dict_get k (JobSetup.set_env (JobSetup.set_env env)) = dict_get k env).
Proof.
  assert (H : truthy (dict_get "SPARK_HOME"
                        [("SPARK_HOME", "/opt/spark"); ("PYTHONPATH", "/usr/lib/py")]) =
              Some "/opt/spark") by reflexivity.
  split; [exact H|].
  exact (JobSetupFacts.set_env_prepends _ _ H).
Defined.

Lemma extract_directory_hdfs_path_witness :
  all_chars HdfsManager.host_ok "nn:8020" = true /\
  first_char "/data/eventlogs" = Some "/"%char /\
  all_chars HdfsManager.path_ok "/data/eventlogs" = true /\
  HdfsManager.extract_directory ("hdfs://" ++ "nn:8020" ++ "/data/eventlogs" ++ "#" ++ "v2") =
    inr "/data/eventlogs".
Proof.
  assert (Hh : all_chars HdfsManager.host_ok "nn:8020" = true) by reflexivity.
  assert (Hf : first_char "/data/eventlogs" = Some "/"%char) by reflexivity.
  assert (Hp : all_chars HdfsManager.path_ok "/data/eventlogs" = true) by reflexivity.
  split; [exact Hh|]. split; [exact Hf|]. split; [exact Hp|].
  exact (UrlFacts.extract_directory_hdfs_path _ _ "#" "v2" Hh (or_intror Hf) Hp
           (or_intror (or_intror eq_refl))).
Defined.

Lemma combine_leaves_other_files_witness :
  ~ In "notes.txt" (raw_names two_logs) /\
  dict_get "notes.txt"
    (out_files (res_state (run_combiner (L:=demo_libs) two_logs [("notes.txt", "keep")] None))) =
    Some "keep".
Proof.
  assert (Hn : ~ In "notes.txt" (raw_names two_logs)).
  { vm_compute. intros [H|H]; [discriminate H|exact H]. }
  split; [exact Hn|].
  exact (CombinerScopeFacts.combine_leaves_other_files (L:=demo_libs) two_logs
           [("notes.txt", "keep")] None "notes.txt" eq_refl eq_refl eq_refl Hn).
Defined.

Lemma combine_appends_logs_witness :
  exists s,
    run_combiner (L:=demo_libs) two_logs [("tool.log", "old;")] None = Ok tt s /\
    ~ In "tool.log" (raw_names two_logs) /\
    dict_get "tool.log" (out_files s) =
      append_all (Some "old;") (flat_map (item_logs "tool.log") two_logs_items) /\
    dict_get "tool.log" (out_files s) = Some "old;onetwo".
Proof.
  assert (Hn : ~ In "tool.log" (raw_names two_logs)).
  { vm_compute. intros [H|H]; [discriminate H|exact H]. }
  exists (res_state (run_combiner (L:=demo_libs) two_logs [("tool.log", "old;")] None)).
  split; [reflexivity|]. split; [exact Hn|].
  assert (E : dict_get "tool.log" (out_files (res_state (run_combiner (L:=demo_libs) two_logs
                [("tool.log", "old;")] None))) =
              append_all (dict_get "tool.log" [("tool.log", "old;")])
                (flat_map (item_logs "tool.log") two_logs_items)).
  { exact (CombinerLogFacts.combine_appends_logs (L:=demo_libs) "executor_output" two_logs_items
             [("tool.log", "old;")] None _ "tool.log" eq_refl eq_refl Hn). }
  split; [exact E|]. rewrite E. reflexivity.
Defined.

Lemma combine_requires_item_layout_witness :
  exists s,
    run_combiner (L:=demo_libs) two_logs [] None = Ok tt s /\
    (forall d, In d two_logs_items ->
       (exists n, d = Dir n []) \/
       exists n inm ics rest rn rcs,
         d = Dir n (Dir inm ics :: rest) /\ child "raw_metrics" (Dir inm ics) = Some (Dir rn rcs)) /\
    (forall pre n inner rest post,
       two_logs_items = app pre (Dir n (inner :: rest) :: post) ->
       (forall d, In d pre -> exists n', d = Dir n' []) ->
       exists pn c, child "runtime.properties" inner = Some (File pn c)).
Proof.
  eexists. split; [reflexivity|].
  exact (CombinerLayoutFacts.combine_requires_item_layout (L:=demo_libs) "executor_output"
           two_logs_items [] None _ eq_refl).
Defined.

Lemma executor_output_path_layout_witness :
  all_chars no_slash "app-1" = true /\
  Utilities.get_executor_output_path "app-1" =
    Utilities.DISTRIBUTED_TOOLS_CACHE_DIR ++ "/" ++
      (if String.eqb "app-1" "" then "" else "app-1" ++ "/") ++
      Utilities.EXECUTOR_OUTPUT_DIR_NAME /\
  (forall abs, first_char abs = Some "/"%char -> ends_with "/" abs = false ->
   Utilities.get_executor_output_path abs = abs ++ "/" ++ Utilities.EXECUTOR_OUTPUT_DIR_NAME).
Proof.
  assert (H : all_chars no_slash "app-1" = true) by reflexivity.
  split; [exact H|].
  exact (ExecutorPathFacts.executor_output_path_layout "app-1" H).
Defined.

End ExtraInstances.
